(** * Lingogo: the review scheduler and its callers

    A shallow embedding of the spaced-repetition code of the Lingogo client:
    the [Phrase] and [PracticeReviewLogEntry] records of [src/types.ts], the
    leech-resolution handler of [components/LeechModal.tsx], the practice
    handlers of [App.tsx] and the review-log code of the data hook
    ([useDataOperations]).

    Conventions.
    - A TypeScript [number] that holds a counter or a millisecond timestamp
      is a [Z]; [number | null] is [option Z].
    - [Date.now()] is an explicit argument [now] of the function that reads
      it: the value the clock had at that read.
    - React state setters are explicit state passing over [AppState].
    - [services/srsService.ts] is imported by the callers; its functions
      are modelled from the specification in [Module srsService]. *)

From Stdlib Require Import ZArith List String Bool Lia Permutation.
From Stdlib Require Import DecimalString DecimalPos Sorted Ascii.
Import ListNotations.
Local Open Scope string_scope.
Local Open Scope list_scope.
Local Open Scope Z_scope.

(** ** Data model: [src/types.ts] *)

Module Category.
Record t : Type := mk
  { id : string;
    name : string;
    color : string;
    isFoundational : bool;
    isNew : option bool }.
End Category.

Record PhraseText : Type := mkPhraseText
  { native : string;
    learning : string }.

Record Phrase : Type := mkPhrase
  { id : string;
    text : PhraseText;
    category : string;
    romanization : option (option string);
    context : option (option string);
    masteryLevel : Z;
    lastReviewedAt : option Z;
    nextReviewAt : Z;
    knowCount : Z;
    knowStreak : Z;
    isMastered : bool;
    lapses : Z;
    isNew : option bool }.

(** [type PracticeReviewAction = 'know' | 'forgot' | 'dont_know'] *)
Inductive PracticeReviewAction : Type :=
| know
| forgot
| dont_know.

Definition PracticeReviewAction_eqb (a b : PracticeReviewAction) : bool :=
  match a, b with
  | know, know | forgot, forgot | dont_know, dont_know => true
  | _, _ => false
  end.

(** The string a [PracticeReviewAction] is at run time. *)
Definition actionName (a : PracticeReviewAction) : string :=
  match a with
  | know => "know"
  | forgot => "forgot"
  | dont_know => "dont_know"
  end.

Module LogEntry.
(** [interface PracticeReviewLogEntry] *)
Record t : Type := mk
  { id : string;
    timestamp : Z;
    phraseId : string;
    categoryId : string;
    action : PracticeReviewAction;
    wasCorrect : bool;
    wasNew : bool;
    previousMasteryLevel : Z;
    newMasteryLevel : Z;
    previousKnowStreak : Z;
    newKnowStreak : Z;
    previousLapses : Z;
    newLapses : Z;
    previousNextReviewAt : Z;
    nextReviewAt : Z;
    previousIsMastered : bool;
    newIsMastered : bool;
    previousKnowCount : Z;
    newKnowCount : Z;
    intervalMs : Z;
    languageLearning : string;
    languageNative : string;
    isLeechAfter : bool }.
End LogEntry.

(** Record update, one function per field the code assigns. *)
Definition set_nextReviewAt (v : Z) (p : Phrase) : Phrase :=
  mkPhrase (id p) (text p) (category p) (romanization p) (context p)
           (masteryLevel p) (lastReviewedAt p) v (knowCount p)
           (knowStreak p) (isMastered p) (lapses p) (isNew p).

(** ** The scheduler: [services/srsService.ts] *)

Module srsService.

(** Modelled from the spec: the constants of [srsService.ts]. Design values
    of sections 4.1 to 4.3. *)
Definition LEECH_THRESHOLD : Z := 4.
Definition MAX_TIER : Z := 7.
Definition MASTERY_TIER : Z := 5.
Definition PROMOTION_STREAK : Z := 2.

Definition MINUTE : Z := 60 * 1000.
Definition HOUR : Z := 60 * MINUTE.
Definition DAY : Z := 24 * HOUR.

(** Modelled from the spec: the interval table of section 4.3, tier 0 to
    tier 7, in milliseconds. *)
Definition INTERVALS : list Z :=
  [10 * MINUTE; 1 * HOUR; 8 * HOUR; 1 * DAY; 3 * DAY; 7 * DAY; 14 * DAY;
   30 * DAY].

(** Modelled from the spec: [interval(masteryLevel)], section 4.3. The
    level is unbounded above and clamped at the maximum tier. *)
Definition interval (level : Z) : Z :=
  nth (Z.to_nat (Z.min level MAX_TIER)) INTERVALS (30 * DAY).

(** Modelled from the spec: [isLeech], section 4.2:
    [lapses >= LEECH_THRESHOLD]. *)
Definition isLeech (p : Phrase) : bool :=
  LEECH_THRESHOLD <=? lapses p.

(** Modelled from the spec: [isMastered], section 4.1:
    [masteryLevel >= MASTERY_TIER] and the item's group is enabled. The
    group of a phrase is its [category]. *)
Definition isPhraseMastered (p : Phrase) (groupEnabled : string -> bool)
  : bool :=
  (MASTERY_TIER <=? masteryLevel p) && groupEnabled (category p).

(** Modelled from the spec: the tier after a review, section 4.1. [know]
    promotes by one tier, up to [MAX_TIER], each time the new streak
    completes [PROMOTION_STREAK] successes; a failure halves the tier,
    rounding down. *)
Definition nextMasteryLevel (p : Phrase) (a : PracticeReviewAction) : Z :=
  match a with
  | know =>
      if ((knowStreak p + 1) mod PROMOTION_STREAK =? 0)
      then Z.min (masteryLevel p + 1) MAX_TIER
      else masteryLevel p
  | forgot | dont_know => masteryLevel p / 2
  end.

(** Modelled from the spec: the state transition of [applyReview],
    section 4.1, on a phrase and an action that passed validation.
    [dont_know] is identical to [forgot]: a [Phrase] has no field that
    could hold a separate failure weight. *)
Definition updatePhraseMastery (p : Phrase) (a : PracticeReviewAction)
           (groupEnabled : string -> bool) (now : Z) : Phrase :=
  let level := nextMasteryLevel p a in
  let counted :=
    match a with
    | know =>
        mkPhrase (id p) (text p) (category p) (romanization p) (context p)
                 level (Some now) (now + interval level)
                 (knowCount p + 1) (knowStreak p + 1)
                 (isMastered p) (lapses p) (isNew p)
    | forgot | dont_know =>
        mkPhrase (id p) (text p) (category p) (romanization p) (context p)
                 level (Some now) (now + interval level)
                 (knowCount p) 0
                 (isMastered p) (lapses p + 1) (isNew p)
    end in
  mkPhrase (id counted) (text counted) (category counted)
           (romanization counted) (context counted)
           (masteryLevel counted) (lastReviewedAt counted)
           (nextReviewAt counted) (knowCount counted) (knowStreak counted)
           (isPhraseMastered counted groupEnabled)
           (lapses counted) (isNew counted).

(** Modelled from the spec: the failure actions of section 4.1, [forgot]
    and [dont_know]. *)
Definition isFailure (a : PracticeReviewAction) : bool :=
  match a with
  | know => false
  | forgot | dont_know => true
  end.

(** Modelled from the spec: the edge-triggered flag of section 4.1. *)
Definition crossedIntoLeech (before after : Phrase)
           (a : PracticeReviewAction) : bool :=
  isFailure a && negb (isLeech before) && isLeech after.

Definition isNone {A : Type} (o : option A) : bool :=
  match o with
  | None => true
  | Some _ => false
  end.

(** Modelled from the spec: the invariants of section 3 that a single
    record can be tested for: the counters are not negative,
    [knowStreak <= knowCount], and [lastReviewedAt] is absent exactly when
    [knowCount] and [lapses] are both zero. *)
Definition validItem (p : Phrase) : bool :=
  (0 <=? masteryLevel p) && (0 <=? knowStreak p) && (0 <=? knowCount p)
  && (0 <=? lapses p)
  && (knowStreak p <=? knowCount p)
  && Bool.eqb (isNone (lastReviewedAt p))
              ((knowCount p =? 0) && (lapses p =? 0)).

(** Modelled from the spec: the error conditions of section 7. *)
Inductive EngineError : Type :=
| InvalidAction
| InvalidItemState.

Inductive Result (A : Type) : Type :=
| Ok : A -> Result A
| Err : EngineError -> Result A.
Arguments Ok {A} _.
Arguments Err {A} _.

(** Modelled from the spec: the action values of section 6, read from the
    string the caller hands over; any other string is no action. *)
Definition parseAction (s : string) : option PracticeReviewAction :=
  if String.eqb s "know" then Some know
  else if String.eqb s "forgot" then Some forgot
  else if String.eqb s "dont_know" then Some dont_know
  else None.

(** Modelled from the spec: [applyReview], sections 4.1, 6 and 7. The
    action is checked first, then the item; only then is the transition
    computed. The result is the updated item and the crossed-into-leech
    flag. *)
Definition applyReview (item : Phrase) (action : string)
           (groupEnabled : string -> bool) (now : Z)
  : Result (Phrase * bool) :=
  match parseAction action with
  | None => Err InvalidAction
  | Some a =>
      if validItem item then
        let updated := updatePhraseMastery item a groupEnabled now in
        Ok (updated, crossedIntoLeech item updated a)
      else Err InvalidItemState
  end.

(** Modelled from the spec: the ranking of due items, section 4.4 step 2:
    ascending [nextReviewAt], then ascending [knowStreak], then [id]. *)
Definition rankLeb (p q : Phrase) : bool :=
  if nextReviewAt p <? nextReviewAt q then true
  else if nextReviewAt q <? nextReviewAt p then false
  else if knowStreak p <? knowStreak q then true
  else if knowStreak q <? knowStreak p then false
  else String.leb (id p) (id q).

(** Modelled from the spec: ranking by insertion into a ranked list. *)
Fixpoint insertRanked (p : Phrase) (l : list Phrase) : list Phrase :=
  match l with
  | [] => [p]
  | q :: rest => if rankLeb p q then p :: l else q :: insertRanked p rest
  end.

Definition rankDue (l : list Phrase) : list Phrase :=
  fold_right insertRanked [] l.

(** Modelled from the spec: section 4.4 step 1, an item is due when
    [nextReviewAt <= now]. *)
Definition isDue (now : Z) (p : Phrase) : bool := nextReviewAt p <=? now.

(** Modelled from the spec: section 4.4 step 3, an item is new when
    [lastReviewedAt] is absent. *)
Definition isNewItem (p : Phrase) : bool := isNone (lastReviewedAt p).

(** Modelled from the spec: an item is eligible when it is due or new. *)
Definition isEligible (now : Z) (p : Phrase) : bool :=
  isDue now p || isNewItem p.

(** Modelled from the spec: the ranked candidates of section 4.4. The due
    items come first, ranked by [rankLeb]; the new items that are not due
    follow in pool order, so that with no due item the first new item of
    the pool is on top (step 3) and a pool with two eligible items always
    has a next-ranked candidate (step 5). *)
Definition candidates (pool : list Phrase) (now : Z) : list Phrase :=
  rankDue (filter (isDue now) pool)
  ++ filter (fun p => isNewItem p && negb (isDue now p)) pool.

(** Modelled from the spec: section 4.4 step 5, the candidate's id equals
    [lastShownId]. *)
Definition idIs (lastShownId : option string) (p : Phrase) : bool :=
  match lastShownId with
  | Some l => String.eqb (id p) l
  | None => false
  end.

(** Modelled from the spec: [selectNext(pool, lastShownId, now)], section
    4.4. No candidate: none (step 4). The top candidate is chosen unless
    its id is [lastShownId] and there is another candidate, in which case
    the next-ranked one is chosen (step 5). *)
Definition selectNextPhrase (pool : list Phrase)
           (lastShownId : option string) (now : Z) : option Phrase :=
  match candidates pool now with
  | [] => None
  | top :: rest =>
      match rest with
      | next :: _ => if idIs lastShownId top then Some next else Some top
      | [] => Some top
      end
  end.

End srsService.

(** ** Leech resolution: [components/LeechModal.tsx] *)

(** [action: 'continue' | 'reset' | 'postpone'] *)
Inductive LeechAction : Type :=
| leech_continue
| leech_reset
| leech_postpone.

(** The first half of [handleLeechAction]: the phrase it computes. [now] is
    the value of [Date.now()] read on entry. *)
Definition leechUpdatedPhrase (phrase : Phrase) (action : LeechAction)
           (now : Z) : Phrase :=
  match action with
  | leech_continue => set_nextReviewAt (now + 10 * 60 * 1000) phrase
  | leech_reset =>
      mkPhrase (id phrase) (text phrase) (category phrase)
               (romanization phrase) (context phrase)
               0 None now 0 0 false 0 (isNew phrase)
  | leech_postpone => set_nextReviewAt (now + 24 * 60 * 60 * 1000) phrase
  end.

(** [prev.map((p) => (p.id === updated.id ? updated : p))] *)
Definition replaceById (key : string) (updated : Phrase)
           (prev : list Phrase) : list Phrase :=
  map (fun p => if String.eqb (id p) key then updated else p) prev.

(** ** Application state *)

Record LanguageProfile : Type := mkLanguageProfile
  { ui : string;
    lp_native : string;
    lp_learning : string }.

(** The React state the handlers below read and set. *)
Record AppState : Type := mkAppState
  { userId : string;
    languageProfile : option LanguageProfile;
    allPhrases : list Phrase;
    currentPracticePhrase : option Phrase;
    practiceReviewLog : list LogEntry.t;
    practiceIsExiting : bool;
    leechPhrase : option Phrase;
    isLeechModalOpen : bool;
    isPracticeAnswerRevealed : bool;
    practiceCardEvaluated : bool;
    cardHistory : list string }.

Definition set_allPhrases (v : list Phrase) (s : AppState) : AppState :=
  mkAppState (userId s) (languageProfile s) v (currentPracticePhrase s)
             (practiceReviewLog s) (practiceIsExiting s) (leechPhrase s)
             (isLeechModalOpen s) (isPracticeAnswerRevealed s)
             (practiceCardEvaluated s) (cardHistory s).

Definition set_currentPracticePhrase (v : option Phrase) (s : AppState)
  : AppState :=
  mkAppState (userId s) (languageProfile s) (allPhrases s) v
             (practiceReviewLog s) (practiceIsExiting s) (leechPhrase s)
             (isLeechModalOpen s) (isPracticeAnswerRevealed s)
             (practiceCardEvaluated s) (cardHistory s).

Definition set_practiceReviewLog (v : list LogEntry.t) (s : AppState)
  : AppState :=
  mkAppState (userId s) (languageProfile s) (allPhrases s)
             (currentPracticePhrase s) v (practiceIsExiting s)
             (leechPhrase s) (isLeechModalOpen s)
             (isPracticeAnswerRevealed s) (practiceCardEvaluated s)
             (cardHistory s).

Definition set_leechModal (open : bool) (v : option Phrase) (s : AppState)
  : AppState :=
  mkAppState (userId s) (languageProfile s) (allPhrases s)
             (currentPracticePhrase s) (practiceReviewLog s)
             (practiceIsExiting s) v open (isPracticeAnswerRevealed s)
             (practiceCardEvaluated s) (cardHistory s).

Definition set_cardFlags (revealed evaluated : bool) (s : AppState)
  : AppState :=
  mkAppState (userId s) (languageProfile s) (allPhrases s)
             (currentPracticePhrase s) (practiceReviewLog s)
             (practiceIsExiting s) (leechPhrase s) (isLeechModalOpen s)
             revealed evaluated (cardHistory s).

Definition set_cardHistory (v : list string) (s : AppState) : AppState :=
  mkAppState (userId s) (languageProfile s) (allPhrases s)
             (currentPracticePhrase s) (practiceReviewLog s)
             (practiceIsExiting s) (leechPhrase s) (isLeechModalOpen s)
             (isPracticeAnswerRevealed s) (practiceCardEvaluated s) v.

(** [handleLeechAction]. [backendOk] says whether
    [backendService.updatePhrase] resolved: the phrase list is replaced
    inside the [try], after the [await], so a rejected call leaves it as it
    was. The modal is closed in both cases. The toast and the timer started
    by [transitionToNext] are outside the state modelled here. *)
Definition handleLeechAction (backendOk : bool) (now : Z) (phrase : Phrase)
           (action : LeechAction) (s : AppState) : AppState :=
  let updatedPhrase := leechUpdatedPhrase phrase action now in
  let s1 :=
    if backendOk
    then set_allPhrases
           (replaceById (id updatedPhrase) updatedPhrase (allPhrases s)) s
    else s in
  set_leechModal false None s1.

(** ** The review log: [appendPracticeReviewLog] in the data hook *)

Definition PRACTICE_REVIEW_LOG_LIMIT : Z := 5000.

(** [Array.prototype.slice(start)]: a negative [start] counts from the end,
    and the start is clamped to the array. *)
Definition slice {A : Type} (start : Z) (l : list A) : list A :=
  let len := Z.of_nat (List.length l) in
  let k := if start <? 0 then Z.max (len + start) 0 else Z.min start len in
  skipn (Z.to_nat k) l.

(** The updater handed to [setPracticeReviewLog]. *)
Definition trimmedLog (prev : list LogEntry.t) (entry : LogEntry.t)
  : list LogEntry.t :=
  let next := prev ++ [entry] in
  if Z.of_nat (List.length next) >? PRACTICE_REVIEW_LOG_LIMIT
  then slice (Z.of_nat (List.length next) - PRACTICE_REVIEW_LOG_LIMIT) next
  else next.

(** [appendPracticeReviewLog]: [if (!userId) return;] leaves the log alone
    when the user id is the empty string. *)
Definition appendPracticeReviewLog (entry : LogEntry.t) (s : AppState)
  : AppState :=
  if String.eqb (userId s) "" then s
  else set_practiceReviewLog (trimmedLog (practiceReviewLog s) entry) s.

(** ** The practice handlers: the data hook and [App.tsx]

    The handlers call [srsService.updatePhraseMastery(phrase, action,
    categories)], [srsService.isLeech(phrase)] and
    [srsService.selectNextPhrase(pool, lastId)]. Inside this section the
    three are variables with the types of the call sites, so that what is
    proved of a handler holds whatever the scheduler computes. *)

(** What a call reads from its surroundings: the clock at the
    [Date.now()] of the log entry, and [crypto.randomUUID()] where the
    platform has it. *)
Record Env : Type := mkEnv
  { Date_now : Z;
    randomUUID : option string }.

(** A number in a template literal: its decimal digits. *)
Definition numberToString (z : Z) : string :=
  DecimalString.NilZero.string_of_int (Z.to_int z).

Section PracticeHandlers.

Variable updatePhraseMastery :
  Phrase -> PracticeReviewAction -> list Category.t -> Phrase.
Variable isLeech : Phrase -> bool.
Variable selectNextPhrase : list Phrase -> option string -> option Phrase.

Variable categories : list Category.t.

(** The [logEntry] literal of [updatePhraseMasteryAndCache]. [lapses] is a
    [number] in [Phrase], so [phrase.lapses ?? 0] is [phrase.lapses]. *)
Definition makeLogEntry (env : Env) (profile : option LanguageProfile)
           (phrase updatedPhrase : Phrase) (action : PracticeReviewAction)
  : LogEntry.t :=
  let logTimestamp := Date_now env in
  LogEntry.mk
    (match randomUUID env with
     | Some uuid => uuid
     | None =>
         ("review_" ++ id phrase ++ "_" ++ numberToString logTimestamp)
           %string
     end)
    logTimestamp
    (id phrase)
    (category phrase)
    action
    (PracticeReviewAction_eqb action know)
    (srsService.isNone (lastReviewedAt phrase))
    (masteryLevel phrase)
    (masteryLevel updatedPhrase)
    (knowStreak phrase)
    (knowStreak updatedPhrase)
    (lapses phrase)
    (lapses updatedPhrase)
    (nextReviewAt phrase)
    (nextReviewAt updatedPhrase)
    (isMastered phrase)
    (isMastered updatedPhrase)
    (knowCount phrase)
    (knowCount updatedPhrase)
    (Z.max (nextReviewAt updatedPhrase - logTimestamp) 0)
    (match profile with Some lp => lp_learning lp | None => "" end)
    (match profile with Some lp => lp_native lp | None => "" end)
    (isLeech updatedPhrase).

(** [updatePhraseMasteryAndCache]: the new state and the phrase it
    returns. Sounds, the phrase-builder cache and the toast of a failed
    background sync leave the state modelled here untouched. *)
Definition updatePhraseMasteryAndCache (env : Env) (phrase : Phrase)
           (action : PracticeReviewAction) (s : AppState)
  : AppState * Phrase :=
  let updatedPhrase := updatePhraseMastery phrase action categories in
  let s1 :=
    set_allPhrases (replaceById (id phrase) updatedPhrase (allPhrases s)) s
  in
  let s2 :=
    match currentPracticePhrase s1 with
    | Some cur =>
        if String.eqb (id cur) (id phrase)
        then set_currentPracticePhrase (Some updatedPhrase) s1
        else s1
    | None => s1
    end in
  let logEntry :=
    makeLogEntry env (languageProfile s2) phrase updatedPhrase action in
  (appendPracticeReviewLog logEntry s2, updatedPhrase).

(** The entry [updatePhraseMasteryAndCache] hands to
    [appendPracticeReviewLog]. *)
Definition reviewLogEntry (env : Env) (phrase : Phrase)
           (action : PracticeReviewAction) (s : AppState) : LogEntry.t :=
  makeLogEntry env (languageProfile s) phrase
               (updatePhraseMastery phrase action categories) action.

(** [handlePracticeUpdateMastery]: the new state and the boolean the
    promise resolves to ([true]: the leech modal was opened). *)
Definition handlePracticeUpdateMastery (env : Env)
           (action : PracticeReviewAction) (s : AppState)
  : AppState * bool :=
  match currentPracticePhrase s with
  | None => (s, false)
  | Some originalPhrase =>
      if practiceIsExiting s then (s, false)
      else
        let srsUpdatedPhrase :=
          updatePhraseMastery originalPhrase action categories in
        let wasLeech := isLeech originalPhrase in
        let isNowLeech := isLeech srsUpdatedPhrase in
        if (PracticeReviewAction_eqb action forgot
            || PracticeReviewAction_eqb action dont_know)
           && (negb wasLeech && isNowLeech)
        then
          let '(s1, backendUpdatedPhrase) :=
            updatePhraseMasteryAndCache env originalPhrase action s in
          (set_leechModal true (Some backendUpdatedPhrase) s1, true)
        else
          let '(s1, finalPhraseState) :=
            updatePhraseMasteryAndCache env originalPhrase action s in
          let revealed :=
            if negb (PracticeReviewAction_eqb action know) then true
            else isPracticeAnswerRevealed s1 in
          let s2 :=
            set_cardFlags revealed (PracticeReviewAction_eqb action know)
                          s1 in
          (set_currentPracticePhrase (Some finalPhraseState) s2, false)
  end.

(** [changePracticePhrase(nextPhrase, direction)] *)
Definition changePracticePhrase (nextPhrase : option Phrase)
           (s : AppState) : AppState :=
  set_currentPracticePhrase nextPhrase (set_cardFlags false false s).

(** [selectNextPracticePhrase], on the memoised [practicePool]. The
    learning-assistant cache entry it deletes is outside the state
    modelled here. *)
Definition selectNextPracticePhrase (practicePool : list Phrase)
           (s : AppState) : AppState :=
  let s1 :=
    match currentPracticePhrase s with
    | Some cur => set_cardHistory (cardHistory s ++ [id cur]) s
    | None => s
    end in
  let nextPhrase :=
    selectNextPhrase practicePool
                     (option_map id (currentPracticePhrase s)) in
  changePracticePhrase nextPhrase s1.

(** The loop of [prefetchPhraseBuilderOptions] that collects the phrases to
    prefetch: at most [count] rounds, each asking the selector for the
    phrase after [nextPhraseId]; it stops at a phrase already collected or
    when the selector has none. *)
Fixpoint prefetchLoop (count : nat) (unmastered : list Phrase)
         (nextPhraseId : option string) (phrasesToFetch : list Phrase)
  : list Phrase :=
  match count with
  | O => phrasesToFetch
  | S rounds =>
      match selectNextPhrase unmastered nextPhraseId with
      | Some nextPhrase =>
          if existsb (fun p => String.eqb (id p) (id nextPhrase))
                     phrasesToFetch
          then phrasesToFetch
          else prefetchLoop rounds unmastered (Some (id nextPhrase))
                            (phrasesToFetch ++ [nextPhrase])
      | None => phrasesToFetch
      end
  end.

Definition PREFETCH_COUNT : nat := 2.

(** [phrasesToFetch] of [prefetchPhraseBuilderOptions], once past its
    re-entrancy guard. *)
Definition prefetchPhrases (startingPhraseId : option string)
           (s : AppState) : list Phrase :=
  prefetchLoop PREFETCH_COUNT
               (filter (fun p => negb (isMastered p)) (allPhrases s))
               startingPhraseId [].

End PracticeHandlers.

(** ** Repeated reviews and sample data *)

(** The same action applied once per review time, oldest first. *)
Definition reviewTimes (a : PracticeReviewAction)
           (groupEnabled : string -> bool) (times : list Z) (item : Phrase)
  : Phrase :=
  fold_left (fun p t => srsService.updatePhraseMastery p a groupEnabled t)
            times item.

(** The last sentence of the double-weight paragraph of section 4.2, as it
    is written: some item is flagged after a run of [dont_know] reviews
    that is strictly shorter than any run of [forgot] reviews that flags
    it. *)
Definition dontKnowReachesLeechFaster : Prop :=
  exists (item : Phrase) (groupEnabled : string -> bool)
         (times : list Z) (needed : nat),
    (List.length times < needed)%nat
    /\ srsService.isLeech (reviewTimes dont_know groupEnabled times item)
       = true
    /\ forall ts : list Z,
        srsService.isLeech (reviewTimes forgot groupEnabled ts item) = true ->
        (needed <= List.length ts)%nat.

(** What the bounded-log sentence promises of every append. *)
Definition appendAlwaysEndsWithEntry : Prop :=
  forall (s : AppState) (entry : LogEntry.t),
    Z.of_nat (List.length (practiceReviewLog s)) <= PRACTICE_REVIEW_LOG_LIMIT ->
    exists front : list LogEntry.t,
      practiceReviewLog (appendPracticeReviewLog entry s) = front ++ [entry].

Definition allEnabled : string -> bool := fun _ => true.

(** A phrase reviewed a few times: tier 3, three lapses. *)
Definition samplePhrase : Phrase :=
  mkPhrase "p1" (mkPhraseText "guten Morgen" "good morning") "greetings"
           None None 3 (Some 1000) 2000 6 2 false 3 None.

(** A phrase that is already a leech. *)
Definition sampleLeech : Phrase :=
  mkPhrase "p2" (mkPhraseText "danke" "thanks") "greetings"
           None None 1 (Some 1000) 2000 2 0 false 5 None.

(** A phrase never reviewed. *)
Definition sampleNew : Phrase :=
  mkPhrase "p3" (mkPhraseText "bitte" "please") "greetings"
           None None 0 None 1500 0 0 false 0 None.

(** A record that breaks [knowStreak <= knowCount]. *)
Definition sampleCorrupt : Phrase :=
  mkPhrase "p4" (mkPhraseText "ja" "yes") "greetings"
           None None 0 (Some 1000) 2000 1 2 false 0 None.

Definition sampleEnv : Env := mkEnv 5000 None.

Definition sampleState : AppState :=
  mkAppState "user-1" (Some (mkLanguageProfile "en" "en" "de"))
             [samplePhrase; sampleLeech; sampleNew] (Some samplePhrase) []
             false None false false false [].

(** The same state with nobody signed in. *)
Definition signedOutState : AppState :=
  mkAppState "" None [samplePhrase] (Some samplePhrase) [] false None false
             false false [].

(** The scheduler as the call sites use it, at clock reading [now] and with
    every category enabled. *)
Definition updateAt (now : Z) (p : Phrase) (a : PracticeReviewAction)
           (_ : list Category.t) : Phrase :=
  srsService.updatePhraseMastery p a allEnabled now.

Definition selectAt (now : Z) (pool : list Phrase) (last : option string)
  : option Phrase :=
  srsService.selectNextPhrase pool last now.

Definition sampleEntry : LogEntry.t :=
  reviewLogEntry (updateAt 4000) srsService.isLeech [] sampleEnv
                 samplePhrase forgot sampleState.





(** ** The phrase-list handlers of [App.tsx] *)

(** [allPhrases.find((p) => p.id === phraseId)] *)
Definition findById (phraseId : string) (l : list Phrase) : option Phrase :=
  find (fun p => String.eqb (id p) phraseId) l.

Definition set_category (v : string) (p : Phrase) : Phrase :=
  mkPhrase (id p) (text p) v (romanization p) (context p)
           (masteryLevel p) (lastReviewedAt p) (nextReviewAt p)
           (knowCount p) (knowStreak p) (isMastered p) (lapses p) (isNew p).

Definition set_text (v : PhraseText) (p : Phrase) : Phrase :=
  mkPhrase (id p) v (category p) (romanization p) (context p)
           (masteryLevel p) (lastReviewedAt p) (nextReviewAt p)
           (knowCount p) (knowStreak p) (isMastered p) (lapses p) (isNew p).

Definition set_isNew (v : option bool) (p : Phrase) : Phrase :=
  mkPhrase (id p) (text p) (category p) (romanization p) (context p)
           (masteryLevel p) (lastReviewedAt p) (nextReviewAt p)
           (knowCount p) (knowStreak p) (isMastered p) (lapses p) v.

(** [handleUpdatePhraseCategory]. [backendOk] says whether
    [backendService.updatePhrase] resolved; the list is replaced after the
    [await], inside the [try]. *)
Definition handleUpdatePhraseCategory (backendOk : bool)
           (phraseId newCategoryId : string) (s : AppState) : AppState :=
  match findById phraseId (allPhrases s) with
  | None => s
  | Some originalPhrase =>
      let updatedPhrase := set_category newCategoryId originalPhrase in
      if backendOk
      then set_allPhrases (replaceById phraseId updatedPhrase (allPhrases s))
                          s
      else s
  end.

(** [handlePhraseImproved]: [newNative ?? originalPhrase.text.native]. *)
Definition handlePhraseImproved (backendOk : bool) (phraseId : string)
           (newLearning : string) (newNative : option string)
           (s : AppState) : AppState :=
  match findById phraseId (allPhrases s) with
  | None => s
  | Some originalPhrase =>
      let updatedPhrase :=
        set_text (mkPhraseText
                    (match newNative with
                     | Some n => n
                     | None => native (text originalPhrase)
                     end)
                    newLearning)
                 originalPhrase in
      if backendOk
      then set_allPhrases (replaceById phraseId updatedPhrase (allPhrases s))
                          s
      else s
  end.

(** The truth value of [p.isNew], an optional boolean. *)
Definition isNewFlag (p : Phrase) : bool :=
  match isNew p with
  | Some true => true
  | _ => false
  end.

(** [handleMarkPhraseAsSeen]: the [isNew] key is dropped from the phrases
    with this id that carry it; without such a phrase the list is
    returned as it is. *)
Definition handleMarkPhraseAsSeen (phraseId : string) (s : AppState)
  : AppState :=
  let prev := allPhrases s in
  if existsb (fun p => String.eqb (id p) phraseId && isNewFlag p) prev
  then set_allPhrases
         (map (fun p =>
                 if String.eqb (id p) phraseId && isNewFlag p
                 then set_isNew None p
                 else p)
              prev)
         s
  else s.

(** [handleConfirmDelete], on the phrase held by the delete modal. The
    modal's own two state variables, reset in the [finally], are outside
    the state modelled here. *)
Definition handleConfirmDelete (backendOk : bool)
           (phraseToDelete : option Phrase) (s : AppState) : AppState :=
  match phraseToDelete with
  | None => s
  | Some doomed =>
      if backendOk then
        let s1 :=
          set_allPhrases
            (filter (fun p => negb (String.eqb (id p) (id doomed)))
                    (allPhrases s))
            s in
        match currentPracticePhrase s with
        | Some cur =>
            if String.eqb (id cur) (id doomed)
            then set_currentPracticePhrase None s1
            else s1
        | None => s1
        end
      else s
  end.

(** [phraseIdsSet.has(id)] *)
Definition inIds (ids : list string) (key : string) : bool :=
  existsb (String.eqb key) ids.

(** The [deletedCount] of [handleConfirmDeleteMultiplePhrases]: one
    [backendService.deletePhrase] call per requested id, in order;
    [callOk i] says whether call number [i] resolved. *)
Definition deletedCount (callOk : nat -> bool) (phraseIds : list string)
  : nat :=
  List.length (filter callOk (seq 0 (List.length phraseIds))).

(** [handleConfirmDeleteMultiplePhrases] *)
Definition handleConfirmDeleteMultiplePhrases (callOk : nat -> bool)
           (phraseIds : list string) (s : AppState) : AppState :=
  if Nat.ltb 0 (deletedCount callOk phraseIds) then
    let s1 :=
      set_allPhrases
        (filter (fun p => negb (inIds phraseIds (id p))) (allPhrases s)) s in
    match currentPracticePhrase s with
    | Some cur =>
        if inIds phraseIds (id cur)
        then set_currentPracticePhrase None s1
        else s1
    | None => s1
    end
  else s.

(** ** Moving between practice cards: [App.tsx] *)

(** [type AnimationDirection = 'left' | 'right'] *)
Inductive AnimationDirection : Type :=
| left_dir
| right_dir.

Definition set_practiceIsExiting (v : bool) (s : AppState) : AppState :=
  mkAppState (userId s) (languageProfile s) (allPhrases s)
             (currentPracticePhrase s) (practiceReviewLog s) v
             (leechPhrase s) (isLeechModalOpen s)
             (isPracticeAnswerRevealed s) (practiceCardEvaluated s)
             (cardHistory s).

(** [Array.prototype.slice(start, end)] *)
Definition sliceRange {A : Type} (start stop : Z) (l : list A) : list A :=
  let len := Z.of_nat (List.length l) in
  let from := if start <? 0 then Z.max (len + start) 0 else Z.min start len
  in
  let upto := if stop <? 0 then Z.max (len + stop) 0 else Z.min stop len in
  firstn (Z.to_nat (upto - from)) (skipn (Z.to_nat from) l).

(** A callback handed to [setTimeout(..., 250)], with what its closure
    captured when the handler ran. *)
Inductive PracticeTimer : Type :=
| NextTimer (direction : AnimationDirection)
            (capturedCurrent : option Phrase) (capturedPool : list Phrase)
| SwipeTimer (capturedHistory : list string)
             (capturedPhrases : list Phrase).

(** [transitionToNext(direction)]: the synchronous part. *)
Definition transitionToNext (direction : AnimationDirection)
           (practicePool : list Phrase) (s : AppState)
  : AppState * option PracticeTimer :=
  if practiceIsExiting s then (s, None)
  else (set_practiceIsExiting true s,
        Some (NextTimer direction (currentPracticePhrase s) practicePool)).

(** [handlePracticeSwipeRight]: the synchronous part. *)
Definition handlePracticeSwipeRight (s : AppState)
  : AppState * option PracticeTimer :=
  if practiceIsExiting s || Nat.eqb (List.length (cardHistory s)) 0
  then (s, None)
  else (set_practiceIsExiting true s,
        Some (SwipeTimer (cardHistory s) (allPhrases s))).

(** [cardHistory[cardHistory.length - 1]] *)
Definition lastId (history : list string) : option string :=
  nth_error history (List.length history - 1).

(** The timer callback, run on the state of that moment. The selector of
    [selectNextPracticePhrase] sees the phrase and the pool its closure
    captured; the history updaters see the live history. *)
Definition runTimer
           (selectNextPhrase : list Phrase -> option string -> option Phrase)
           (t : PracticeTimer) (s : AppState) : AppState :=
  match t with
  | NextTimer direction capturedCurrent capturedPool =>
      let s1 :=
        match direction with
        | right_dir =>
            selectNextPracticePhrase
              selectNextPhrase capturedPool
              (set_currentPracticePhrase capturedCurrent s)
        | left_dir => s
        end in
      set_practiceIsExiting false s1
  | SwipeTimer capturedHistory capturedPhrases =>
      let prevPhrase :=
        match lastId capturedHistory with
        | Some lastPhraseId => findById lastPhraseId capturedPhrases
        | None => None
        end in
      let s1 :=
        match prevPhrase with
        | Some p =>
            changePracticePhrase
              (Some p)
              (set_cardHistory (sliceRange 0 (-1) (cardHistory s)) s)
        | None => s
        end in
      set_practiceIsExiting false s1
  end.

(** [handleLeechAction] to its end: the phrase is stored, the modal is
    closed and [transitionToNext()] is called. *)
Definition handleLeechActionThenNext (backendOk : bool) (now : Z)
           (phrase : Phrase) (action : LeechAction)
           (practicePool : list Phrase) (s : AppState)
  : AppState * option PracticeTimer :=
  transitionToNext right_dir practicePool
                   (handleLeechAction backendOk now phrase action s).

(** A handler followed at once by the timer it started, if any. *)
Definition thenTimer
           (selectNextPhrase : list Phrase -> option string -> option Phrase)
           (r : AppState * option PracticeTimer) : AppState :=
  match snd r with
  | Some t => runTimer selectNextPhrase t (fst r)
  | None => fst r
  end.

(** ** The practice pool: [App.tsx] *)

(** [settings.enabledCategories[key]] on a record of own boolean
    properties, listed as key and value pairs; a missing key reads as
    [undefined]. *)
Fixpoint lookupEnabled (enabledCategories : list (string * bool))
         (key : string) : option bool :=
  match enabledCategories with
  | [] => None
  | (k, v) :: rest =>
      if String.eqb k key then Some v else lookupEnabled rest key
  end.

Definition truthy (o : option bool) : bool :=
  match o with
  | Some true => true
  | _ => false
  end.

(** [allPhrases.filter((p) => p && !p.isMastered &&
    settings.enabledCategories[p.category])] *)
Definition unmasteredPhrases (enabledCategories : list (string * bool))
           (phrases : list Phrase) : list Phrase :=
  filter (fun p => negb (isMastered p)
                   && truthy (lookupEnabled enabledCategories (category p)))
         phrases.

(** [practicePool]: the whole of [unmasteredPhrases] under the filter
    ['all'], else its phrases of the chosen category. *)
Definition practicePool (practiceCategoryFilter : string)
           (unmastered : list Phrase) : list Phrase :=
  if String.eqb practiceCategoryFilter "all" then unmastered
  else filter (fun p => String.eqb (category p) practiceCategoryFilter)
              unmastered.

(** ** The handlers as steps of the application state *)

Section Steps.

Variable updatePhraseMastery :
  Phrase -> PracticeReviewAction -> list Category.t -> Phrase.
Variable isLeech : Phrase -> bool.
Variable selectNextPhrase : list Phrase -> option string -> option Phrase.
Variable categories : list Category.t.

(** One handler call, or one timer callback, on the state. *)
Inductive step : AppState -> AppState -> Prop :=
| step_review :
    forall (env : Env) (a : PracticeReviewAction) (s : AppState),
      step s (fst (handlePracticeUpdateMastery
                     updatePhraseMastery isLeech categories env a s))
| step_leech_action :
    forall (backendOk : bool) (now : Z) (phrase : Phrase)
           (action : LeechAction) (s : AppState),
      step s (handleLeechAction backendOk now phrase action s)
| step_select_next :
    forall (pool : list Phrase) (s : AppState),
      step s (selectNextPracticePhrase selectNextPhrase pool s)
| step_transition :
    forall (direction : AnimationDirection) (pool : list Phrase)
           (s : AppState),
      step s (fst (transitionToNext direction pool s))
| step_swipe_right :
    forall s : AppState, step s (fst (handlePracticeSwipeRight s))
| step_timer :
    forall (t : PracticeTimer) (s : AppState),
      step s (runTimer selectNextPhrase t s)
| step_confirm_delete :
    forall (backendOk : bool) (phraseToDelete : option Phrase)
           (s : AppState),
      step s (handleConfirmDelete backendOk phraseToDelete s)
| step_delete_multiple :
    forall (callOk : nat -> bool) (phraseIds : list string) (s : AppState),
      step s (handleConfirmDeleteMultiplePhrases callOk phraseIds s)
| step_mark_seen :
    forall (phraseId : string) (s : AppState),
      step s (handleMarkPhraseAsSeen phraseId s)
| step_move :
    forall (backendOk : bool) (phraseId newCategoryId : string)
           (s : AppState),
      step s (handleUpdatePhraseCategory backendOk phraseId newCategoryId s)
| step_improve :
    forall (backendOk : bool) (phraseId newLearning : string)
           (newNative : option string) (s : AppState),
      step s (handlePhraseImproved backendOk phraseId newLearning newNative
                                   s).

(** The states reached from [s0] by any number of steps. *)
Inductive reachable (s0 : AppState) : AppState -> Prop :=
| reach_start : reachable s0 s0
| reach_step :
    forall s s' : AppState, reachable s0 s -> step s s' -> reachable s0 s'.

End Steps.

(** What the handlers keep true of the state: the leech modal is open
    exactly when it holds a phrase, the review log is within its limit and
    the stored phrases have pairwise distinct ids. *)
Definition stateInvariant (s : AppState) : Prop :=
  (isLeechModalOpen s = true <-> leechPhrase s <> None)
  /\ Z.of_nat (List.length (practiceReviewLog s))
     <= PRACTICE_REVIEW_LOG_LIMIT
  /\ NoDup (map id (allPhrases s)).

(** ** Storage keys and [localStorage]: the data hook *)

(** The truth value of a string that may be absent: [null], [undefined]
    and the empty string are false. *)
Definition truthyString (o : option string) : bool :=
  match o with
  | Some s => negb (String.eqb s "")
  | None => false
  end.

(** [getStorageKey(baseKey, userId, languageProfile)] *)
Definition getStorageKey (baseKey : string) (user : option string)
           (profile : option LanguageProfile) : string :=
  match user with
  | Some u =>
      if String.eqb u "" then baseKey
      else
        match profile with
        | None => (baseKey ++ "_" ++ u)%string
        | Some lp =>
            (baseKey ++ "_" ++ u ++ "_" ++ lp_native lp ++ "_"
                     ++ lp_learning lp)%string
        end
  | None => baseKey
  end.

Definition PHRASES_KEY := getStorageKey "userPhrases".
Definition CATEGORIES_KEY := getStorageKey "userCategories".
Definition PRACTICE_CHAT_SESSIONS_KEY :=
  getStorageKey "userPracticeChatSessions".
Definition PRACTICE_REVIEW_LOG_KEY := getStorageKey "userPracticeReviewLog".

Definition LEGACY_PHRASES_KEY : string := "learningPhrases".
Definition LEGACY_CATEGORIES_KEY : string := "learningAppCategories".

(** [localStorage]: what [getItem] returns for each key. *)
Definition Storage : Type := string -> option string.

Definition getItem (st : Storage) (key : string) : option string := st key.

Definition setItem (key value : string) (st : Storage) : Storage :=
  fun k => if String.eqb k key then Some value else st k.

Definition removeItem (key : string) (st : Storage) : Storage :=
  fun k => if String.eqb k key then None else st k.

(** One of the two blocks of [migrateLegacyStorage]: the legacy value is
    copied to the new key when there is one and the new key holds nothing,
    and the legacy key is then removed. *)
Definition migrateKey (legacyKey newKey : string) (st : Storage) : Storage :=
  match getItem st legacyKey with
  | Some legacy =>
      if negb (String.eqb legacy "")
         && negb (truthyString (getItem st newKey))
      then removeItem legacyKey (setItem newKey legacy st)
      else st
  | None => st
  end.

(** [migrateLegacyStorage(userId, languageProfile)] *)
Definition migrateLegacyStorage (user : string) (profile : LanguageProfile)
           (st : Storage) : Storage :=
  migrateKey LEGACY_CATEGORIES_KEY
             (CATEGORIES_KEY (Some user) (Some profile))
             (migrateKey LEGACY_PHRASES_KEY
                         (PHRASES_KEY (Some user) (Some profile)) st).

(** [interface PracticeChatSessionRecord] *)
Record PracticeChatSessionRecord : Type := mkPracticeChatSessionRecord
  { phrasesUsedIds : list string;
    correctCount : Z;
    incorrectCount : Z;
    partialCount : Z;
    hintsUsed : Z;
    duration : Z;
    messagesExchanged : Z;
    sessionStartTime : Z;
    sessionEndTime : Z;
    sessionId : string }.

(** The updater of [updatePracticeChatSessionComplete]:
    [[...prev, session].slice(-50)] *)
Definition updatePracticeChatSessionComplete
           (session : PracticeChatSessionRecord)
           (prev : list PracticeChatSessionRecord)
  : list PracticeChatSessionRecord :=
  slice (-50) (prev ++ [session]).

(** ** Enabled categories: [loadUserData] and the category handlers *)

(** [loadedCategories.reduce((acc, cat) => ({ ...acc, [cat.id]: true }),
    {})]. A record of boolean properties is a list of pairs read from the
    front, so an entry put in front overrides an older one. *)
Definition defaultEnabledCategories (loadedCategories : list Category.t)
  : list (string * bool) :=
  fold_left (fun acc cat => (Category.id cat, true) :: acc)
            loadedCategories [].

(** [cat.id in enabledCategories] *)
Definition hasKey (enabledCategories : list (string * bool))
           (key : string) : bool :=
  match lookupEnabled enabledCategories key with
  | Some _ => true
  | None => false
  end.

(** The [enabledCategories] that [loadUserData] puts into the settings
    when stored settings exist: the defaults, overridden by the stored
    record (which may be missing), and then [true] for every loaded
    category still without an entry. *)
Definition mergeEnabledCategories (loadedCategories : list Category.t)
           (stored : option (list (string * bool)))
  : list (string * bool) :=
  let spread :=
    (match stored with Some st => st | None => [] end)
      ++ defaultEnabledCategories loadedCategories in
  fold_left (fun enabled cat =>
               if hasKey enabled (Category.id cat) then enabled
               else (Category.id cat, true) :: enabled)
            loadedCategories spread.




(** The test of one migration block: there is a legacy value and the new
    key holds nothing. *)
Definition shouldMove (st : Storage) (legacyKey newKey : string) : bool :=
  truthyString (st legacyKey) && negb (truthyString (st newKey)).

(** The two blocks of [migrateLegacyStorage], on any four keys. *)
Definition migrateTwoKeys (legacyP newP legacyC newC : string)
           (st : Storage) : Storage :=
  migrateKey legacyC newC (migrateKey legacyP newP st).

(** ** Frontend and backend records: [backendService.ts] *)

(** A JavaScript number as far as ids go: an integer or [NaN]. *)
Inductive JsNumber : Type :=
| NaN
| Num (z : Z).

(** [n.toString()] *)
Definition numToString (n : JsNumber) : string :=
  match n with
  | NaN => "NaN"
  | Num z => numberToString z
  end.

(** White space that [parseInt] skips, on the ASCII range. *)
Definition isWhitespace (c : Ascii.ascii) : bool :=
  let n := Ascii.N_of_ascii c in
  (N.eqb n 9 || N.eqb n 10 || N.eqb n 11 || N.eqb n 12 || N.eqb n 13
   || N.eqb n 32)%bool.

Fixpoint trimStart (s : string) : string :=
  match s with
  | String c rest => if isWhitespace c then trimStart rest else s
  | EmptyString => s
  end.

Definition digitOf (c : Ascii.ascii) : option Z :=
  let n := Z.of_N (Ascii.N_of_ascii c) in
  if (48 <=? n) && (n <=? 57) then Some (n - 48) else None.

(** The value of the longest prefix of decimal digits, after [acc]. *)
Fixpoint digitsValue (acc : Z) (s : string) : Z :=
  match s with
  | String c rest =>
      match digitOf c with
      | Some d => digitsValue (10 * acc + d) rest
      | None => acc
      end
  | EmptyString => acc
  end.

Definition startsWithDigit (s : string) : bool :=
  match s with
  | String c _ =>
      match digitOf c with
      | Some _ => true
      | None => false
      end
  | EmptyString => false
  end.

(** [parseInt(s, 10)]: leading white space is skipped, one sign is read,
    then the longest run of digits; with no digit the result is [NaN]. *)
Definition parseInt (s : string) : JsNumber :=
  let s1 := trimStart s in
  let signed :=
    match s1 with
    | String c rest =>
        if Ascii.eqb c "-"%char then (true, rest)
        else if Ascii.eqb c "+"%char then (false, rest)
        else (false, s1)
    | EmptyString => (false, s1)
    end in
  if startsWithDigit (snd signed)
  then Num (if fst signed then - digitsValue 0 (snd signed)
            else digitsValue 0 (snd signed))
  else NaN.

(** [tailwindToHexMap] *)
Definition tailwindToHexMap : list (string * string) :=
  [("bg-slate-500", "#64748b"); ("bg-red-500", "#ef4444");
   ("bg-orange-500", "#f97316"); ("bg-amber-500", "#f59e0b");
   ("bg-yellow-500", "#eab308"); ("bg-lime-500", "#84cc16");
   ("bg-green-500", "#22c55e"); ("bg-emerald-500", "#10b981");
   ("bg-teal-500", "#14b8a6"); ("bg-cyan-500", "#06b6d4");
   ("bg-sky-500", "#0ea5e9"); ("bg-blue-500", "#3b82f6");
   ("bg-indigo-500", "#6366f1"); ("bg-violet-500", "#8b5cf6");
   ("bg-purple-500", "#a855f7"); ("bg-fuchsia-500", "#d946ef");
   ("bg-pink-500", "#ec4899"); ("bg-rose-500", "#f43f5e")].

(** [map[key]] on a record of own string properties listed as pairs: the
    first pair with the key. *)
Fixpoint lookupString (m : list (string * string)) (key : string)
  : option string :=
  match m with
  | [] => None
  | (k, v) :: rest =>
      if String.eqb k key then Some v else lookupString rest key
  end.

(** [Object.fromEntries]: a later entry replaces an earlier one with the
    same key, so the entries are listed last first. *)
Definition fromEntries (entries : list (string * string))
  : list (string * string) :=
  rev entries.

(** [hexToTailwindMap] *)
Definition hexToTailwindMap : list (string * string) :=
  fromEntries (map (fun kv => (snd kv, fst kv)) tailwindToHexMap).

(** [s.toLowerCase()] on the ASCII letters; other characters are kept. *)
Definition lowerAscii (c : Ascii.ascii) : Ascii.ascii :=
  let n := Ascii.N_of_ascii c in
  if (N.leb 65 n && N.leb n 90)%bool then Ascii.ascii_of_N (n + 32) else c.

Fixpoint toLowerCase (s : string) : string :=
  match s with
  | String c rest => String (lowerAscii c) (toLowerCase rest)
  | EmptyString => EmptyString
  end.

(** [value || fallback] for a string that may be [undefined] *)
Definition orElse (value : option string) (fallback : string) : string :=
  match value with
  | Some v => if String.eqb v "" then fallback else v
  | None => fallback
  end.

(** [type DbCategory], without [user_id] *)
Record DbCategory : Type := mkDbCategory
  { dbc_id : option JsNumber;
    dbc_name : string;
    dbc_color : string;
    dbc_is_foundational : bool }.

(** [feCategory]. [beCategory.id.toString()] throws a [TypeError] when the
    record has no id: the result is then [None]. *)
Definition feCategory (beCategory : DbCategory) : option Category.t :=
  match dbc_id beCategory with
  | None => None
  | Some n =>
      Some (Category.mk
              (numToString n)
              (dbc_name beCategory)
              (orElse (lookupString hexToTailwindMap
                                    (toLowerCase (dbc_color beCategory)))
                      "bg-slate-500")
              (dbc_is_foundational beCategory)
              None)
  end.

(** The colour sent to the backend: [tailwindToHexMap[color] ||
    '#64748b'] *)
Definition hexColorOf (color : string) : string :=
  orElse (lookupString tailwindToHexMap color) "#64748b".

(** [createCategory]. [backend] is [supabaseService.createCategory] on the
    record it is sent: the row it resolves to, or [None] when it rejects,
    in which case the [catch] hands back the record that was sent. The
    result is [None] when the promise rejects. *)
Definition createCategory (backend : DbCategory -> option DbCategory)
           (name color : string) (isFoundational : bool)
  : option Category.t :=
  let dbCategory := mkDbCategory None name (hexColorOf color) isFoundational
  in
  let created :=
    match backend dbCategory with
    | Some row => row
    | None => dbCategory
    end in
  feCategory created.


(** [type DbPhrase], without [user_id]. A field left out of the record, or
    set to [undefined], is [None]. *)
Record DbPhrase : Type := mkDbPhrase
  { dbp_id : option JsNumber;
    dbp_native_text : option string;
    dbp_learning_text : option string;
    dbp_category_id : JsNumber;
    dbp_transcription : option string;
    dbp_context : option string;
    dbp_masteryLevel : option Z;
    dbp_lastReviewedAt : option Z;
    dbp_nextReviewAt : option Z;
    dbp_knowCount : option Z;
    dbp_knowStreak : option Z;
    dbp_isMastered : option bool;
    dbp_lapses : option Z }.

(** [text || undefined] for the legacy fallback [(phrase as any).native],
    which a [Phrase] does not have. *)
Definition nonEmpty (s : string) : option string :=
  if String.eqb s "" then None else Some s.

(** [phrase.romanization?.learning] and [phrase.context?.native] *)
Definition optionalField (o : option (option string)) : option string :=
  match o with
  | Some (Some v) => Some v
  | _ => None
  end.

(** The [dBphrase] literal of [updatePhrase]. *)
Definition toDbPhrase (phrase : Phrase) : DbPhrase :=
  mkDbPhrase (Some (parseInt (id phrase)))
             (nonEmpty (native (text phrase)))
             (nonEmpty (learning (text phrase)))
             (parseInt (category phrase))
             (optionalField (romanization phrase))
             (optionalField (context phrase))
             (Some (masteryLevel phrase))
             (lastReviewedAt phrase)
             (Some (nextReviewAt phrase))
             (Some (knowCount phrase))
             (Some (knowStreak phrase))
             (Some (isMastered phrase))
             (Some (lapses phrase)).

(** [n <= 0] on a number that may be [NaN]: false for [NaN]. *)
Definition leZero (n : JsNumber) : bool :=
  match n with
  | NaN => false
  | Num z => z <=? 0
  end.

(** What [updatePhrase] hands to [supabaseService.updatePhrase]: the row id
    and the record, or [None] when the category guard throws first. *)
Definition updatePhraseRequest (phrase : Phrase)
  : option (option JsNumber * DbPhrase) :=
  let dBphrase := toDbPhrase phrase in
  if leZero (dbp_category_id dBphrase) then None
  else Some (dbp_id dBphrase, dBphrase).

(** ** Retrying a request: [fetchWithRetry] in [backendService.ts] *)

(** What one [fetch] call does: it resolves to a response with a status
    code, or it throws. *)
Inductive FetchResult : Type :=
| Responded (status : Z)
| Failed (error : string).

(** How [fetchWithRetry] ends: with the response it returns or the error
    it throws. *)
Inductive RetryOutcome : Type :=
| Returned (status : Z)
| Threw (error : string).

(** [response.ok] *)
Definition statusOk (status : Z) : bool :=
  (200 <=? status) && (status <=? 299).

(** The run of a retry loop: its outcome, the number of [fetch] calls made
    and the base delays slept between them, oldest first (each sleep adds a
    random jitter below 200 ms to its base delay). *)
Record RetryRun : Type := mkRetryRun
  { outcome : RetryOutcome;
    calls : nat;
    slept : list Z }.

(** The [for] loop of [fetchWithRetry] from iteration [i] on, with
    [remaining = retries - i] iterations left. [fetch i] is what call
    number [i] does. The request headers the loop builds do not bear on its
    control flow and are left out. *)
Fixpoint fetchLoop (fetch : nat -> FetchResult) (retries remaining i : nat)
         (delay : Z) (sleeps : list Z) : RetryRun :=
  match remaining with
  | O => mkRetryRun (Threw "Request failed after all retries.") i sleeps
  | S rest =>
      match fetch i with
      | Responded status =>
          if statusOk status || (status =? 401) || (status =? 403)
          then mkRetryRun (Returned status) (S i) sleeps
          else if (status =? 429) && Nat.ltb i (retries - 1)
               then fetchLoop fetch retries rest (S i) (delay * 2)
                              (sleeps ++ [delay])
               else mkRetryRun (Returned status) (S i) sleeps
      | Failed error =>
          if Nat.ltb i (retries - 1)
          then fetchLoop fetch retries rest (S i) (delay * 2)
                         (sleeps ++ [delay])
          else mkRetryRun (Threw error) (S i) sleeps
      end
  end.

(** [fetchWithRetry(url, options, retries = 3, initialDelay = 500)] *)
Definition fetchWithRetry (fetch : nat -> FetchResult) (retries : nat)
           (initialDelay : Z) : RetryRun :=
  fetchLoop fetch retries retries 0 initialDelay [].

(** A call that the loop answers by trying again. *)
Definition isRetried (r : FetchResult) : bool :=
  match r with
  | Responded status => status =? 429
  | Failed _ => true
  end.

(** * Theorems *)

(** ** The forgot transition *)

Lemma interval_tier1 : srsService.interval 1 = 3600000.
Proof. reflexivity. Qed.

Lemma validItem_parse_ok :
  forall item a groupEnabled now,
    srsService.validItem item = true ->
    srsService.applyReview item (actionName a) groupEnabled now
    = srsService.Ok
        (srsService.updatePhraseMastery item a groupEnabled now,
         srsService.crossedIntoLeech
           item (srsService.updatePhraseMastery item a groupEnabled now) a).
Proof.
  intros item a groupEnabled now Hvalid.
  unfold srsService.applyReview.
  destruct a; cbn [actionName]; cbv [srsService.parseAction String.eqb
    Ascii.eqb Bool.eqb]; rewrite Hvalid; reflexivity.
Qed.

(** C1. For every item and every time [now], the forgot transition sets
    [knowStreak] to 0, adds exactly 1 to [lapses], sets [masteryLevel] to
    the floor of half its previous value, sets [lastReviewedAt] to [now] and
    [nextReviewAt] to [now] plus the interval of the halved tier; an item at
    tier 3 ends at tier 1 and is due one hour later. On an item that meets
    the record invariants [applyReview] returns exactly this item. *)
Theorem forgot_transition :
  forall (item : Phrase) (groupEnabled : string -> bool) (now : Z),
    let u := srsService.updatePhraseMastery item forgot groupEnabled now in
    (knowStreak u = 0
     /\ lapses u = lapses item + 1
     /\ masteryLevel u = masteryLevel item / 2
     /\ 2 * masteryLevel u <= masteryLevel item < 2 * masteryLevel u + 2
     /\ lastReviewedAt u = Some now
     /\ nextReviewAt u = now + srsService.interval (masteryLevel item / 2)
     /\ knowCount u = knowCount item
     /\ (2 <= masteryLevel item -> 0 < masteryLevel u)
     /\ (masteryLevel item = 3 ->
         masteryLevel u = 1 /\ nextReviewAt u = now + 3600000))
    /\ (srsService.validItem item = true ->
        exists crossed : bool,
          srsService.applyReview item "forgot" groupEnabled now
          = srsService.Ok (u, crossed)).
Proof.
  intros item groupEnabled now u.
  split.
  - subst u.
    unfold srsService.updatePhraseMastery, srsService.nextMasteryLevel.
    cbn [knowStreak lapses masteryLevel lastReviewedAt nextReviewAt
         knowCount].
    pose proof (Z.div_mod (masteryLevel item) 2 ltac:(lia)) as Hdm.
    pose proof (Z.mod_pos_bound (masteryLevel item) 2 ltac:(lia)) as Hm.
    repeat match goal with |- _ /\ _ => split end;
      try reflexivity; try lia.
    intros H3; rewrite H3; split; reflexivity.
  - intros Hvalid.
    eexists.
    exact (validItem_parse_ok item forgot groupEnabled now Hvalid).
Qed.

Lemma forgot_transition_witness :
  srsService.validItem samplePhrase = true
  /\ exists crossed : bool,
      srsService.applyReview samplePhrase "forgot" allEnabled 4000
      = srsService.Ok
          (srsService.updatePhraseMastery samplePhrase forgot allEnabled 4000,
           crossed).
Proof.
  split.
  - reflexivity.
  - apply (proj2 (forgot_transition samplePhrase allEnabled 4000)).
    reflexivity.
Defined.

(** ** The leech-resolution actions *)

Lemma handleLeechAction_allPhrases :
  forall (now : Z) (phrase : Phrase) (action : LeechAction) (s : AppState),
    allPhrases (handleLeechAction true now phrase action s)
    = replaceById (id phrase) (leechUpdatedPhrase phrase action now)
                  (allPhrases s).
Proof.
  intros now phrase action s.
  unfold handleLeechAction.
  destruct action; reflexivity.
Qed.

(** C2. For every item and every time [now], the reset action of the leech
    modal produces an item with [masteryLevel], [knowStreak], [knowCount]
    and [lapses] at 0, [isMastered] false, [lastReviewedAt] absent and
    [nextReviewAt = now]; the item is not a leech, whatever positive
    threshold the detector uses; and it is this item that replaces the
    phrase in the stored list. *)
Theorem leech_reset_progress :
  forall (phrase : Phrase) (now : Z) (s : AppState),
    let u := leechUpdatedPhrase phrase leech_reset now in
    masteryLevel u = 0
    /\ knowStreak u = 0
    /\ knowCount u = 0
    /\ lapses u = 0
    /\ isMastered u = false
    /\ lastReviewedAt u = None
    /\ nextReviewAt u = now
    /\ srsService.isLeech u = false
    /\ (forall threshold : Z,
           0 < threshold -> (threshold <=? lapses u) = false)
    /\ id u = id phrase
    /\ allPhrases (handleLeechAction true now phrase leech_reset s)
       = replaceById (id phrase) u (allPhrases s).
Proof.
  intros phrase now s u.
  repeat match goal with |- _ /\ _ => split end;
    try first [apply handleLeechAction_allPhrases | reflexivity].
  intros threshold Hpos. apply Z.leb_gt. exact Hpos.
Qed.

Lemma leech_reset_progress_witness :
  srsService.isLeech sampleLeech = true
  /\ srsService.isLeech (leechUpdatedPhrase sampleLeech leech_reset 4000)
     = false
  /\ (srsService.LEECH_THRESHOLD
      <=? lapses (leechUpdatedPhrase sampleLeech leech_reset 4000)) = false.
Proof.
  pose proof (leech_reset_progress sampleLeech 4000 sampleState)
    as (_ & _ & _ & _ & _ & _ & _ & Hleech & Hany & _).
  split; [reflexivity|].
  split; [exact Hleech|].
  apply Hany. reflexivity.
Defined.

(** C3. For every item and every time [now], the continue (retry-short)
    action sets [nextReviewAt] to [now] + 10 minutes and the postpone action
    sets it to [now] + 24 hours; in both cases every other field of the item
    is as it was. *)
Theorem leech_retry_postpone_frame :
  forall (phrase : Phrase) (now : Z),
    let r := leechUpdatedPhrase phrase leech_continue now in
    let q := leechUpdatedPhrase phrase leech_postpone now in
    (nextReviewAt r = now + 10 * srsService.MINUTE
     /\ nextReviewAt q = now + 24 * srsService.HOUR)
    /\ (r = set_nextReviewAt (nextReviewAt r) phrase
        /\ q = set_nextReviewAt (nextReviewAt q) phrase)
    /\ forall u : Phrase,
        u = r \/ u = q ->
        masteryLevel u = masteryLevel phrase
        /\ knowStreak u = knowStreak phrase
        /\ knowCount u = knowCount phrase
        /\ lapses u = lapses phrase
        /\ lastReviewedAt u = lastReviewedAt phrase
        /\ isMastered u = isMastered phrase
        /\ id u = id phrase
        /\ text u = text phrase
        /\ category u = category phrase
        /\ romanization u = romanization phrase
        /\ context u = context phrase
        /\ isNew u = isNew phrase.
Proof.
  intros phrase now r q.
  split; [split; reflexivity|].
  split; [split; reflexivity|].
  intros u [-> | ->]; repeat split.
Qed.

Lemma leech_retry_postpone_frame_witness :
  knowStreak (leechUpdatedPhrase sampleLeech leech_postpone 4000) = 0
  /\ lapses (leechUpdatedPhrase sampleLeech leech_postpone 4000) = 5
  /\ nextReviewAt (leechUpdatedPhrase sampleLeech leech_postpone 4000)
     = 86404000.
Proof.
  pose proof (leech_retry_postpone_frame sampleLeech 4000) as [[_ Hq] [_ H]].
  specialize (H _ (or_intror eq_refl)).
  destruct H as (_ & Hs & _ & Hl & _).
  split; [exact Hs|].
  split; [exact Hl|].
  exact Hq.
Defined.

(** ** The crossed-into-leech signal *)

Section EdgeTrigger.

Variable updatePhraseMastery :
  Phrase -> PracticeReviewAction -> list Category.t -> Phrase.
Variable isLeech : Phrase -> bool.
Variable categories : list Category.t.

Lemma handle_ignored :
  forall env a s,
    currentPracticePhrase s = None \/ practiceIsExiting s = true ->
    handlePracticeUpdateMastery updatePhraseMastery isLeech categories env
      a s = (s, false).
Proof.
  intros env a s H.
  unfold handlePracticeUpdateMastery.
  destruct (currentPracticePhrase s); [|reflexivity].
  destruct H as [H | H]; [discriminate|].
  rewrite H; reflexivity.
Qed.

Lemma handle_processed :
  forall env a s p,
    currentPracticePhrase s = Some p ->
    practiceIsExiting s = false ->
    snd (handlePracticeUpdateMastery updatePhraseMastery isLeech categories env
      a s)
    = srsService.isFailure a && (negb (isLeech p)
                                 && isLeech (updatePhraseMastery p a categories)).
Proof.
  intros env a s p Hcur Hexit.
  unfold handlePracticeUpdateMastery.
  rewrite Hcur, Hexit.
  replace (PracticeReviewAction_eqb a forgot
           || PracticeReviewAction_eqb a dont_know)
    with (srsService.isFailure a) by (destruct a; reflexivity).
  destruct (srsService.isFailure a
            && (negb (isLeech p)
                && isLeech (updatePhraseMastery p a categories)));
    destruct (updatePhraseMasteryAndCache _ _ _ _ _ _ _); reflexivity.
Qed.

End EdgeTrigger.

(** C4. The value [handlePracticeUpdateMastery] resolves to is
    edge-triggered. Whatever the scheduler computes, it is [true] exactly
    when a review is processed whose action is [forgot] or [dont_know], on
    an item that was not a leech before the transition and is one after it;
    hence on an item that already is a leech no action reports [true]. *)
Theorem crossedIntoLeech_edge_triggered :
  forall (updatePhraseMastery :
            Phrase -> PracticeReviewAction -> list Category.t -> Phrase)
         (isLeech : Phrase -> bool) (categories : list Category.t)
         (env : Env) (a : PracticeReviewAction) (s : AppState),
    let reported :=
      snd (handlePracticeUpdateMastery updatePhraseMastery isLeech categories
                                       env a s) in
    (reported = true <->
     exists p : Phrase,
       currentPracticePhrase s = Some p
       /\ practiceIsExiting s = false
       /\ (a = forgot \/ a = dont_know)
       /\ isLeech p = false
       /\ isLeech (updatePhraseMastery p a categories) = true)
    /\ (forall p : Phrase,
           currentPracticePhrase s = Some p ->
           isLeech p = true -> reported = false).
Proof.
  intros upd isLeech categories env a s reported.
  assert (Hfail : srsService.isFailure a = true <-> a = forgot \/ a = dont_know).
  { destruct a; cbn; split; intros H; try discriminate; auto;
      destruct H; discriminate. }
  destruct (currentPracticePhrase s) as [p|] eqn:Hcur.
  - destruct (practiceIsExiting s) eqn:Hexit.
    + assert (Hr : reported = false).
      { subst reported.
        rewrite (handle_ignored upd isLeech categories env a s
                                (or_intror Hexit)).
        reflexivity. }
      split.
      * rewrite Hr; split; [discriminate|].
        intros (q & _ & Hq & _); discriminate.
      * intros; exact Hr.
    + assert (Hr : reported
                   = srsService.isFailure a
                     && (negb (isLeech p) && isLeech (upd p a categories))).
      { subst reported.
        apply handle_processed; assumption. }
      split.
      * rewrite Hr. split.
        -- intros H.
           apply andb_true_iff in H as [Hf H].
           apply andb_true_iff in H as [Hw Hn].
           exists p. repeat split; auto.
           ++ apply Hfail; exact Hf.
           ++ apply negb_true_iff; exact Hw.
        -- intros (q & Hq & _ & Ha & Hw & Hn).
           injection Hq as <-.
           apply Hfail in Ha.
           rewrite Ha, Hw, Hn; reflexivity.
      * intros q Hq Hl.
        injection Hq as <-.
        rewrite Hr, Hl.
        destruct (srsService.isFailure a); reflexivity.
  - assert (Hr : reported = false).
    { subst reported.
      rewrite (handle_ignored upd isLeech categories env a s
                              (or_introl Hcur)).
      reflexivity. }
    split.
    + rewrite Hr; split; [discriminate|].
      intros (q & Hq & _); discriminate.
    + intros; exact Hr.
Qed.

Lemma crossedIntoLeech_edge_triggered_witness :
  snd (handlePracticeUpdateMastery
         (updateAt 4000) srsService.isLeech [] sampleEnv dont_know
         sampleState) = true
  /\ snd (handlePracticeUpdateMastery
            (updateAt 4000) srsService.isLeech [] sampleEnv dont_know
            (set_currentPracticePhrase (Some sampleLeech) sampleState))
     = false.
Proof.
  split.
  - apply (proj1 (crossedIntoLeech_edge_triggered
                    (updateAt 4000) srsService.isLeech [] sampleEnv
                    dont_know sampleState)).
    exists samplePhrase.
    repeat split; auto.
  - apply (proj2 (crossedIntoLeech_edge_triggered
                    (updateAt 4000) srsService.isLeech [] sampleEnv
                    dont_know
                    (set_currentPracticePhrase (Some sampleLeech)
                                               sampleState))
                 sampleLeech); reflexivity.
Defined.

(** ** Lapses and the leech threshold *)

Lemma isLeech_iff :
  forall p : Phrase,
    srsService.isLeech p = true <-> srsService.LEECH_THRESHOLD <= lapses p.
Proof.
  intros p. unfold srsService.isLeech. apply Z.leb_le.
Qed.

Lemma failure_lapses :
  forall (p : Phrase) (a : PracticeReviewAction)
         (groupEnabled : string -> bool) (now : Z),
    srsService.isFailure a = true ->
    lapses (srsService.updatePhraseMastery p a groupEnabled now)
    = lapses p + 1.
Proof.
  intros p a groupEnabled now Hf.
  destruct a; [discriminate| |]; reflexivity.
Qed.

Lemma reviewTimes_lapses :
  forall (a : PracticeReviewAction) (groupEnabled : string -> bool)
         (times : list Z) (item : Phrase),
    srsService.isFailure a = true ->
    lapses (reviewTimes a groupEnabled times item)
    = lapses item + Z.of_nat (List.length times).
Proof.
  intros a groupEnabled times.
  induction times as [|t times IH]; intros item Hf.
  - cbn. lia.
  - cbn [reviewTimes fold_left List.length].
    change (fold_left _ times ?x) with (reviewTimes a groupEnabled times x).
    rewrite IH by assumption.
    rewrite failure_lapses by assumption.
    lia.
Qed.

Lemma reviewTimes_same_flag :
  forall (groupEnabled : string -> bool) (times : list Z) (item : Phrase),
    srsService.isLeech (reviewTimes dont_know groupEnabled times item)
    = srsService.isLeech (reviewTimes forgot groupEnabled times item).
Proof.
  intros groupEnabled times item.
  unfold srsService.isLeech.
  rewrite !reviewTimes_lapses by reflexivity.
  reflexivity.
Qed.

(** C5, as written, does not hold: with [isLeech] decided by [lapses] alone
    and one lapse per failure, no item is flagged by fewer [dont_know]
    reviews than [forgot] reviews. *)
Lemma dont_know_not_faster_than_forgot : ~ dontKnowReachesLeechFaster.
Proof.
  intros (item & groupEnabled & times & needed & Hlt & Hdk & Hmin).
  rewrite reviewTimes_same_flag in Hdk.
  apply Hmin in Hdk.
  lia.
Qed.

(** C5, amended. [isLeech] holds exactly when [lapses >= 4]; [forgot] and
    [dont_know] each add exactly 1 to [lapses]; and after any run of
    failure reviews the leech flag is the same whether the run was of
    [dont_know] or of [forgot], so both flag an item after the same number
    of reviews. *)
Theorem leech_threshold_counts_lapses :
  (forall p : Phrase, srsService.isLeech p = true <-> 4 <= lapses p)
  /\ (forall (p : Phrase) (groupEnabled : string -> bool) (now : Z),
         lapses (srsService.updatePhraseMastery p forgot groupEnabled now)
         = lapses p + 1
         /\ lapses (srsService.updatePhraseMastery p dont_know groupEnabled
                                                    now)
            = lapses p + 1)
  /\ (forall (groupEnabled : string -> bool) (times : list Z)
             (item : Phrase),
         srsService.isLeech (reviewTimes dont_know groupEnabled times item)
         = srsService.isLeech (reviewTimes forgot groupEnabled times item))
  /\ (forall (a : PracticeReviewAction) (groupEnabled : string -> bool)
             (times : list Z) (item : Phrase),
         a = forgot \/ a = dont_know ->
         (srsService.isLeech (reviewTimes a groupEnabled times item) = true
          <-> 4 <= lapses item + Z.of_nat (List.length times))).
Proof.
  split; [exact isLeech_iff|].
  split; [intros; split; reflexivity|].
  split; [exact reviewTimes_same_flag|].
  intros a groupEnabled times item Ha.
  rewrite isLeech_iff, reviewTimes_lapses.
  - reflexivity.
  - destruct Ha; subst a; reflexivity.
Qed.

Lemma leech_threshold_counts_lapses_witness :
  srsService.isLeech (reviewTimes dont_know allEnabled [4000] samplePhrase)
  = true
  /\ srsService.isLeech (reviewTimes forgot allEnabled [4000] samplePhrase)
     = true.
Proof.
  destruct leech_threshold_counts_lapses as (_ & _ & _ & H).
  split.
  - apply (H dont_know allEnabled [4000] samplePhrase (or_intror eq_refl)).
    cbn. lia.
  - apply (H forgot allEnabled [4000] samplePhrase (or_introl eq_refl)).
    cbn. lia.
Defined.

(** ** The candidate selector *)

Lemma insertRanked_perm :
  forall (p : Phrase) (l : list Phrase),
    Permutation (srsService.insertRanked p l) (p :: l).
Proof.
  intros p l.
  induction l as [|q rest IH]; cbn.
  - apply Permutation_refl.
  - destruct (srsService.rankLeb p q).
    + apply Permutation_refl.
    + apply Permutation_trans with (q :: p :: rest).
      * apply perm_skip; exact IH.
      * apply perm_swap.
Qed.

Lemma rankDue_perm :
  forall l : list Phrase, Permutation (srsService.rankDue l) l.
Proof.
  induction l as [|p rest IH]; cbn.
  - apply perm_nil.
  - apply Permutation_trans with (p :: srsService.rankDue rest).
    + apply insertRanked_perm.
    + apply perm_skip; exact IH.
Qed.

Lemma rankLeb_total :
  forall p q : Phrase,
    srsService.rankLeb p q = false -> srsService.rankLeb q p = true.
Proof.
  intros p q.
  unfold srsService.rankLeb.
  destruct (nextReviewAt p <? nextReviewAt q) eqn:H1; [discriminate|].
  destruct (nextReviewAt q <? nextReviewAt p) eqn:H2; [reflexivity|].
  destruct (knowStreak p <? knowStreak q) eqn:H3; [discriminate|].
  destruct (knowStreak q <? knowStreak p) eqn:H4; [reflexivity|].
  intros Hid.
  destruct (String.leb_total (id p) (id q)) as [H | H]; congruence.
Qed.

Lemma rankLeb_nextReviewAt :
  forall p q : Phrase,
    srsService.rankLeb p q = true -> nextReviewAt p <= nextReviewAt q.
Proof.
  intros p q.
  unfold srsService.rankLeb.
  destruct (nextReviewAt p <? nextReviewAt q) eqn:H1.
  - apply Z.ltb_lt in H1. lia.
  - destruct (nextReviewAt q <? nextReviewAt p) eqn:H2; [discriminate|].
    apply Z.ltb_ge in H1, H2. lia.
Qed.

Lemma insertRanked_sorted :
  forall (p : Phrase) (l : list Phrase),
    Sorted (fun a b => srsService.rankLeb a b = true) l ->
    Sorted (fun a b => srsService.rankLeb a b = true)
           (srsService.insertRanked p l).
Proof.
  intros p l Hs.
  induction Hs as [|q rest Hrest IH Hhd]; cbn.
  - repeat constructor.
  - destruct (srsService.rankLeb p q) eqn:Hpq.
    + constructor; [constructor; assumption|].
      constructor; exact Hpq.
    + constructor; [exact IH|].
      destruct Hhd as [|r rest' Hqr]; cbn.
      * constructor. apply rankLeb_total; exact Hpq.
      * destruct (srsService.rankLeb p r); constructor;
          [apply rankLeb_total; exact Hpq | exact Hqr].
Qed.

Lemma rankDue_sorted :
  forall l : list Phrase,
    Sorted (fun a b => srsService.rankLeb a b = true) (srsService.rankDue l).
Proof.
  induction l as [|p rest IH]; cbn.
  - constructor.
  - apply insertRanked_sorted; exact IH.
Qed.

Lemma sorted_head_most_overdue :
  forall (top : Phrase) (rest : list Phrase),
    Sorted (fun a b => srsService.rankLeb a b = true) (top :: rest) ->
    Forall (fun q => nextReviewAt top <= nextReviewAt q) rest.
Proof.
  intros top rest. revert top.
  induction rest as [|r rest IH]; intros top Hs.
  - constructor.
  - inversion Hs as [|x xs Htail Hhd]; subst.
    inversion Hhd as [|y ys Hle]; subst.
    apply rankLeb_nextReviewAt in Hle.
    constructor; [exact Hle|].
    specialize (IH r Htail).
    eapply Forall_impl; [|exact IH].
    cbn. intros q Hq. lia.
Qed.

(** With no last-shown id, a due pool yields its most overdue item. *)
Lemma selectNextPhrase_most_overdue :
  forall (pool : list Phrase) (now : Z) (p q : Phrase),
    srsService.selectNextPhrase pool None now = Some p ->
    In q pool -> srsService.isDue now q = true ->
    srsService.isDue now p = true /\ nextReviewAt p <= nextReviewAt q.
Proof.
  intros pool now p q Hsel Hin Hdue.
  unfold srsService.selectNextPhrase, srsService.candidates in Hsel.
  pose proof (rankDue_sorted (filter (srsService.isDue now) pool)) as Hs.
  pose proof (rankDue_perm (filter (srsService.isDue now) pool)) as Hp.
  assert (Hq : In q (srsService.rankDue (filter (srsService.isDue now) pool))).
  { apply (Permutation_in q (Permutation_sym Hp)).
    apply filter_In; split; assumption. }
  destruct (srsService.rankDue (filter (srsService.isDue now) pool))
    as [|top rest]; [contradiction|].
  assert (Hp' : p = top).
  { cbn in Hsel. destruct (rest ++ _); congruence. }
  subst p.
  split.
  - assert (Htop : In top (filter (srsService.isDue now) pool)).
    { apply (Permutation_in top Hp). left; reflexivity. }
    apply filter_In in Htop. tauto.
  - destruct Hq as [<- | Hq]; [lia|].
    pose proof (sorted_head_most_overdue top rest Hs) as Hall.
    rewrite Forall_forall in Hall. apply Hall; exact Hq.
Qed.

Lemma filter_either_perm :
  forall (A : Type) (f g : A -> bool) (l : list A),
    Permutation (filter (fun x => f x || g x) l)
                (filter f l ++ filter (fun x => g x && negb (f x)) l).
Proof.
  intros A f g l.
  induction l as [|x rest IH]; cbn.
  - apply perm_nil.
  - destruct (f x); cbn.
    + rewrite andb_false_r. apply perm_skip; exact IH.
    + rewrite andb_true_r. destruct (g x).
      * apply Permutation_cons_app; exact IH.
      * exact IH.
Qed.

Lemma candidates_perm :
  forall (pool : list Phrase) (now : Z),
    Permutation (srsService.candidates pool now)
                (filter (srsService.isEligible now) pool).
Proof.
  intros pool now.
  unfold srsService.candidates, srsService.isEligible.
  apply Permutation_trans
    with (filter (srsService.isDue now) pool
          ++ filter (fun p => srsService.isNewItem p
                              && negb (srsService.isDue now p)) pool).
  - apply Permutation_app_tail. apply rankDue_perm.
  - apply Permutation_sym. apply filter_either_perm.
Qed.

Lemma NoDup_map_filter :
  forall (A B : Type) (key : A -> B) (f : A -> bool) (l : list A),
    NoDup (map key l) -> NoDup (map key (filter f l)).
Proof.
  intros A B key f l.
  induction l as [|x rest IH]; cbn; intros Hnd.
  - constructor.
  - inversion Hnd as [|y ys Hnotin Hrest]; subst.
    destruct (f x); cbn; [|auto].
    constructor; [|auto].
    intros Hin. apply Hnotin.
    apply in_map_iff in Hin as (z & Hz & Hin).
    apply filter_In in Hin as [Hin _].
    apply in_map_iff. exists z; auto.
Qed.


Lemma candidates_eligible :
  forall (pool : list Phrase) (now : Z) (p : Phrase),
    In p (srsService.candidates pool now) <->
    In p pool /\ srsService.isEligible now p = true.
Proof.
  intros pool now p.
  rewrite <- filter_In.
  split; apply Permutation_in.
  - apply candidates_perm.
  - apply Permutation_sym, candidates_perm.
Qed.

Lemma selectNextPhrase_in_candidates :
  forall (pool : list Phrase) (last : option string) (now : Z) (p : Phrase),
    srsService.selectNextPhrase pool last now = Some p ->
    In p (srsService.candidates pool now).
Proof.
  intros pool last now p.
  unfold srsService.selectNextPhrase.
  destruct (srsService.candidates pool now) as [|top [|next rest]];
    [discriminate| |].
  - intros H; injection H as <-; left; reflexivity.
  - destruct (srsService.idIs last top); intros H; injection H as <-;
      cbn; auto.
Qed.





(** ** The clock *)








(** ** The bounded review log *)

Lemma trimmedLog_skipn :
  forall (prev : list LogEntry.t) (entry : LogEntry.t),
    trimmedLog prev entry
    = skipn (Z.to_nat (Z.of_nat (List.length prev) + 1
                       - PRACTICE_REVIEW_LOG_LIMIT))
            (prev ++ [entry]).
Proof.
  intros prev entry.
  unfold trimmedLog, slice, PRACTICE_REVIEW_LOG_LIMIT.
  rewrite length_app. cbn [List.length].
  destruct (Z.of_nat (List.length prev + 1) >? 5000) eqn:Hgt.
  - apply Z.gtb_lt in Hgt.
    destruct (Z.of_nat (List.length prev + 1) - 5000 <? 0) eqn:Hneg.
    + apply Z.ltb_lt in Hneg. lia.
    + f_equal. lia.
  - assert (Hle : Z.of_nat (List.length prev + 1) <= 5000).
    { destruct (Z.gtb_spec (Z.of_nat (List.length prev + 1)) 5000);
        [discriminate | assumption]. }
    replace (Z.to_nat (Z.of_nat (List.length prev) + 1 - 5000)) with O
      by lia.
    reflexivity.
Qed.

Lemma trimmedLog_suffix :
  forall (prev : list LogEntry.t) (entry : LogEntry.t),
    let k := Z.to_nat (Z.of_nat (List.length prev) + 1
                       - PRACTICE_REVIEW_LOG_LIMIT) in
    trimmedLog prev entry = skipn k prev ++ [entry]
    /\ prev = firstn k prev ++ skipn k prev
    /\ List.length (firstn k prev) = k.
Proof.
  intros prev entry k.
  assert (Hk : (k <= List.length prev)%nat).
  { subst k. unfold PRACTICE_REVIEW_LOG_LIMIT. lia. }
  split; [|split].
  - rewrite trimmedLog_skipn. fold k.
    rewrite skipn_app.
    replace (k - List.length prev)%nat with O by lia.
    reflexivity.
  - symmetry. apply firstn_skipn.
  - rewrite length_firstn. lia.
Qed.

Lemma trimmedLog_length :
  forall (prev : list LogEntry.t) (entry : LogEntry.t),
    Z.of_nat (List.length (trimmedLog prev entry))
    = Z.min (Z.of_nat (List.length prev) + 1) PRACTICE_REVIEW_LOG_LIMIT.
Proof.
  intros prev entry.
  rewrite trimmedLog_skipn, length_skipn, length_app.
  unfold PRACTICE_REVIEW_LOG_LIMIT. cbn [List.length]. lia.
Qed.

(** C8, as written, does not hold: with no user id the append returns
    before it touches the log, so the entry is not its last element. *)
Lemma append_without_user_drops_entry : ~ appendAlwaysEndsWithEntry.
Proof.
  intros H.
  destruct (H signedOutState sampleEntry) as [front Hfront].
  - cbn. unfold PRACTICE_REVIEW_LOG_LIMIT. lia.
  - cbn in Hfront. destruct front; discriminate.
Qed.

(** C8, amended. With a user id present, for every log of length at most
    5000 and every new entry, the log after the append ends with the new
    entry, has length at most 5000, and is the most recent entries of the
    old log, unchanged and in order, followed by the new one: nothing is
    evicted while the old log is shorter than 5000, and exactly the oldest
    entry is evicted when it holds 5000. With no user id the append leaves
    the state as it was. *)
Theorem review_log_bounded_fifo :
  forall (s : AppState) (entry : LogEntry.t),
    Z.of_nat (List.length (practiceReviewLog s))
    <= PRACTICE_REVIEW_LOG_LIMIT ->
    let log := practiceReviewLog s in
    let log' := practiceReviewLog (appendPracticeReviewLog entry s) in
    (userId s <> "" ->
     (exists front : list LogEntry.t, log' = front ++ [entry])
     /\ Z.of_nat (List.length log') <= PRACTICE_REVIEW_LOG_LIMIT
     /\ (exists evicted : list LogEntry.t,
            log ++ [entry] = evicted ++ log'
            /\ Z.of_nat (List.length evicted)
               = Z.max 0 (Z.of_nat (List.length log) + 1
                          - PRACTICE_REVIEW_LOG_LIMIT))
     /\ (Z.of_nat (List.length log) < PRACTICE_REVIEW_LOG_LIMIT ->
         log' = log ++ [entry])
     /\ (Z.of_nat (List.length log) = PRACTICE_REVIEW_LOG_LIMIT ->
         log' = tl log ++ [entry]
         /\ Z.of_nat (List.length log') = PRACTICE_REVIEW_LOG_LIMIT))
    /\ (userId s = "" -> appendPracticeReviewLog entry s = s).
Proof.
  intros s entry Hlen log log'.
  split.
  - intros Huser.
    assert (Hlog' : log' = trimmedLog log entry).
    { subst log' log. unfold appendPracticeReviewLog.
      apply String.eqb_neq in Huser. rewrite Huser. reflexivity. }
    destruct (trimmedLog_suffix log entry) as (Hsuf & Hsplit & Hfirst).
    pose proof (trimmedLog_length log entry) as Hlength.
    fold log in Hlen.
    rewrite <- Hlog' in Hsuf, Hlength.
    clear Hlog'. clearbody log log'.
    unfold PRACTICE_REVIEW_LOG_LIMIT in *.
    repeat match goal with |- _ /\ _ => split end.
    + eexists; exact Hsuf.
    + lia.
    + eexists. split.
      * rewrite Hsuf, app_assoc, <- Hsplit. reflexivity.
      * rewrite Hfirst. lia.
    + intros Hlt. rewrite Hsuf.
      replace (Z.to_nat (Z.of_nat (List.length log) + 1 - 5000)) with O
        by lia.
      reflexivity.
    + intros Heq. split; [|lia].
      rewrite Hsuf.
      replace (Z.to_nat (Z.of_nat (List.length log) + 1 - 5000)) with 1%nat
        by lia.
      destruct log; reflexivity.
  - intros Huser.
    unfold appendPracticeReviewLog. rewrite Huser. reflexivity.
Qed.

Lemma review_log_bounded_fifo_witness :
  practiceReviewLog (appendPracticeReviewLog sampleEntry sampleState)
  = [sampleEntry]
  /\ appendPracticeReviewLog sampleEntry signedOutState = signedOutState.
Proof.
  split.
  - assert (Hlen : Z.of_nat (List.length (practiceReviewLog sampleState))
                   <= PRACTICE_REVIEW_LOG_LIMIT).
    { cbn. unfold PRACTICE_REVIEW_LOG_LIMIT. lia. }
    destruct (review_log_bounded_fifo sampleState sampleEntry Hlen)
      as [Hin _].
    destruct Hin as (_ & _ & _ & Hshort & _).
    + cbn. discriminate.
    + apply Hshort. cbn. unfold PRACTICE_REVIEW_LOG_LIMIT. lia.
  - assert (Hlen : Z.of_nat (List.length (practiceReviewLog signedOutState))
                   <= PRACTICE_REVIEW_LOG_LIMIT).
    { cbn. unfold PRACTICE_REVIEW_LOG_LIMIT. lia. }
    destruct (review_log_bounded_fifo signedOutState sampleEntry Hlen)
      as [_ Hout].
    apply Hout. reflexivity.
Defined.

(** ** Contract violations *)

Lemma parseAction_some :
  forall (s : string) (a : PracticeReviewAction),
    srsService.parseAction s = Some a <-> s = actionName a.
Proof.
  intros s a.
  unfold srsService.parseAction.
  destruct (String.eqb_spec s "know") as [-> | Hk].
  { destruct a; cbn; split; intros H; congruence. }
  destruct (String.eqb_spec s "forgot") as [-> | Hf].
  { destruct a; cbn; split; intros H; congruence. }
  destruct (String.eqb_spec s "dont_know") as [-> | Hd].
  { destruct a; cbn; split; intros H; congruence. }
  split; [discriminate|].
  destruct a; cbn; intros ->; contradiction.
Qed.

Lemma parseAction_none :
  forall s : string,
    srsService.parseAction s = None <->
    s <> "know" /\ s <> "forgot" /\ s <> "dont_know".
Proof.
  intros s.
  unfold srsService.parseAction.
  destruct (String.eqb_spec s "know") as [-> | Hk].
  { split; [discriminate | intros (H & _); contradiction]. }
  destruct (String.eqb_spec s "forgot") as [-> | Hf].
  { split; [discriminate | intros (_ & H & _); contradiction]. }
  destruct (String.eqb_spec s "dont_know") as [-> | Hd].
  { split; [discriminate | intros (_ & _ & H); contradiction]. }
  split; auto.
Qed.

Lemma streak_above_count_invalid :
  forall item : Phrase,
    knowCount item < knowStreak item -> srsService.validItem item = false.
Proof.
  intros item Hlt.
  unfold srsService.validItem.
  apply Z.leb_gt in Hlt. rewrite Hlt.
  rewrite andb_false_r. reflexivity.
Qed.

(** C9. [applyReview] rejects contract violations. For every action value
    other than know, forgot and dont_know it fails with [InvalidAction],
    whatever the item; for every item record that breaks the invariants of
    section 3, such as [knowStreak > knowCount], and every one of the three
    actions it fails with [InvalidItemState]; and for such a record no
    action at all yields an updated item. *)
Theorem applyReview_rejects_violations :
  (forall (item : Phrase) (action : string) (g : string -> bool) (now : Z),
      action <> "know" -> action <> "forgot" -> action <> "dont_know" ->
      srsService.applyReview item action g now
      = srsService.Err srsService.InvalidAction)
  /\ (forall (item : Phrase) (a : PracticeReviewAction)
             (g : string -> bool) (now : Z),
         srsService.validItem item = false ->
         srsService.applyReview item (actionName a) g now
         = srsService.Err srsService.InvalidItemState)
  /\ (forall (item : Phrase) (action : string) (g : string -> bool)
             (now : Z) (r : Phrase * bool),
         srsService.validItem item = false ->
         srsService.applyReview item action g now <> srsService.Ok r)
  /\ (forall item : Phrase,
         knowCount item < knowStreak item ->
         srsService.validItem item = false).
Proof.
  repeat match goal with |- _ /\ _ => split end.
  - intros item action g now Hk Hf Hd.
    unfold srsService.applyReview.
    rewrite (proj2 (parseAction_none action)) by auto.
    reflexivity.
  - intros item a g now Hinvalid.
    unfold srsService.applyReview.
    rewrite (proj2 (parseAction_some (actionName a) a) eq_refl).
    rewrite Hinvalid. reflexivity.
  - intros item action g now r Hinvalid.
    unfold srsService.applyReview.
    destruct (srsService.parseAction action); [|discriminate].
    rewrite Hinvalid. discriminate.
  - exact streak_above_count_invalid.
Qed.

Lemma applyReview_rejects_violations_witness :
  srsService.applyReview samplePhrase "maybe" allEnabled 4000
  = srsService.Err srsService.InvalidAction
  /\ srsService.applyReview sampleCorrupt "forgot" allEnabled 4000
     = srsService.Err srsService.InvalidItemState.
Proof.
  destruct applyReview_rejects_violations as (Hact & Hitem & _ & Hstreak).
  split.
  - apply Hact; discriminate.
  - apply (Hitem sampleCorrupt forgot).
    apply Hstreak. cbn. lia.
Defined.

(** ** The review log entry *)

(** C10. The log entry written for a review of phrase [p] with action [a],
    with the clock at [t] when the entry is built, snapshots the
    transition: its [previous*] fields are the fields of [p], its [new*]
    fields and [nextReviewAt] are those of the updated phrase, [wasCorrect]
    holds exactly when [a] is [know], [wasNew] exactly when
    [p.lastReviewedAt] is null, and [intervalMs] is
    [max(updated.nextReviewAt - t, 0)], so never negative. It is this entry
    that [updatePhraseMasteryAndCache] appends to the log. *)
Theorem reviewLogEntry_snapshot :
  forall (updatePhraseMastery :
            Phrase -> PracticeReviewAction -> list Category.t -> Phrase)
         (isLeech : Phrase -> bool) (categories : list Category.t)
         (env : Env) (p : Phrase) (a : PracticeReviewAction) (s : AppState),
    let updated := updatePhraseMastery p a categories in
    let e := reviewLogEntry updatePhraseMastery isLeech categories env p a s
    in
    (LogEntry.previousMasteryLevel e = masteryLevel p
     /\ LogEntry.previousKnowStreak e = knowStreak p
     /\ LogEntry.previousLapses e = lapses p
     /\ LogEntry.previousNextReviewAt e = nextReviewAt p
     /\ LogEntry.previousIsMastered e = isMastered p
     /\ LogEntry.previousKnowCount e = knowCount p)
    /\ (LogEntry.newMasteryLevel e = masteryLevel updated
        /\ LogEntry.newKnowStreak e = knowStreak updated
        /\ LogEntry.newLapses e = lapses updated
        /\ LogEntry.nextReviewAt e = nextReviewAt updated
        /\ LogEntry.newIsMastered e = isMastered updated
        /\ LogEntry.newKnowCount e = knowCount updated
        /\ LogEntry.isLeechAfter e = isLeech updated)
    /\ (LogEntry.phraseId e = id p
        /\ LogEntry.categoryId e = category p
        /\ LogEntry.action e = a
        /\ LogEntry.timestamp e = Date_now env)
    /\ (LogEntry.wasCorrect e = true <-> a = know)
    /\ (LogEntry.wasNew e = true <-> lastReviewedAt p = None)
    /\ LogEntry.intervalMs e = Z.max (nextReviewAt updated - Date_now env) 0
    /\ 0 <= LogEntry.intervalMs e
    /\ snd (updatePhraseMasteryAndCache updatePhraseMastery isLeech
                                        categories env p a s) = updated
    /\ practiceReviewLog
         (fst (updatePhraseMasteryAndCache updatePhraseMastery isLeech
                                           categories env p a s))
       = practiceReviewLog (appendPracticeReviewLog e s).
Proof.
  intros upd isLeech categories env p a s updated e.
  split; [repeat split|].
  split; [repeat split|].
  split; [repeat split|].
  split.
  { subst e; cbn. destruct a; cbn; split; intros H; congruence. }
  split.
  { subst e; cbn. destruct (lastReviewedAt p); cbn; split; intros H;
      congruence. }
  split; [reflexivity|].
  split.
  { subst e; cbn [reviewLogEntry makeLogEntry LogEntry.intervalMs].
    apply Z.le_max_r. }
  split; [reflexivity|].
  subst e updated.
  unfold updatePhraseMasteryAndCache, reviewLogEntry, appendPracticeReviewLog.
  cbn [fst].
  destruct (currentPracticePhrase
              (set_allPhrases
                 (replaceById (id p) (upd p a categories) (allPhrases s)) s))
    as [cur|]; [destruct (String.eqb (id cur) (id p))|];
    cbn [userId languageProfile practiceReviewLog set_allPhrases
         set_currentPracticePhrase];
    destruct (String.eqb (userId s) ""); reflexivity.
Qed.

(** ** The scenarios of section 8, evaluated *)

Example scenario_new_item_know :
  let u := srsService.updatePhraseMastery sampleNew know allEnabled 1500 in
  knowCount u = 1 /\ knowStreak u = 1 /\ masteryLevel u = 0
  /\ nextReviewAt u = 1500 + 10 * srsService.MINUTE
  /\ lastReviewedAt u = Some 1500.
Proof. repeat split. Qed.

Example scenario_tier3_forgot :
  srsService.applyReview samplePhrase "forgot" allEnabled 4000
  = srsService.Ok
      (mkPhrase "p1" (mkPhraseText "guten Morgen" "good morning")
                "greetings" None None 1 (Some 4000) (4000 + 3600000) 6 0
                false 4 None,
       true).
Proof. reflexivity. Qed.

Example scenario_three_lapses_dont_know :
  srsService.applyReview samplePhrase "dont_know" allEnabled 4000
  = srsService.Ok
      (srsService.updatePhraseMastery samplePhrase dont_know allEnabled 4000,
       true)
  /\ lapses (srsService.updatePhraseMastery samplePhrase dont_know
                                            allEnabled 4000) = 4.
Proof. split; reflexivity. Qed.

Example scenario_leech_reset :
  leechUpdatedPhrase sampleLeech leech_reset 4000
  = mkPhrase "p2" (mkPhraseText "danke" "thanks") "greetings" None None
             0 None 4000 0 0 false 0 None.
Proof. reflexivity. Qed.

Example scenario_select_most_overdue :
  srsService.selectNextPhrase [samplePhrase; sampleLeech; sampleNew] None
                              4000 = Some sampleNew
  /\ srsService.selectNextPhrase [samplePhrase; sampleLeech; sampleNew]
                                 (Some "p3") 4000 = Some sampleLeech
  /\ srsService.selectNextPhrase [samplePhrase] (Some "p1") 4000
     = Some samplePhrase
  /\ srsService.selectNextPhrase [samplePhrase; sampleLeech] None 1000
     = None.
Proof. repeat split. Qed.

Example scenario_fallback_entry_id :
  LogEntry.id sampleEntry = "review_p1_5000"
  /\ LogEntry.intervalMs sampleEntry = 3599000
  /\ LogEntry.isLeechAfter sampleEntry = true.
Proof. repeat split. Qed.

(** * Further properties of the handlers *)

(** ** Replacing a phrase by id *)

Lemma replaceById_length :
  forall (key : string) (updated : Phrase) (l : list Phrase),
    List.length (replaceById key updated l) = List.length l.
Proof.
  intros. unfold replaceById. apply length_map.
Qed.

Lemma replaceById_ids :
  forall (key : string) (updated : Phrase) (l : list Phrase),
    id updated = key ->
    map id (replaceById key updated l) = map id l.
Proof.
  intros key updated l Hid.
  unfold replaceById. rewrite map_map.
  apply map_ext_in. intros p _.
  destruct (String.eqb_spec (id p) key); congruence.
Qed.




Lemma leechUpdatedPhrase_id :
  forall (phrase : Phrase) (action : LeechAction) (now : Z),
    id (leechUpdatedPhrase phrase action now) = id phrase.
Proof.
  intros phrase action now. destruct action; reflexivity.
Qed.

(** X1. Whatever the leech action and whether or not the backend call
    succeeds, [handleLeechAction] closes the modal and keeps the ids of the
    stored phrases, in their order; when the backend call fails the stored
    list is left exactly as it was. *)
Theorem handleLeechAction_keeps_list_shape :
  forall (backendOk : bool) (now : Z) (phrase : Phrase)
         (action : LeechAction) (s : AppState),
    let s' := handleLeechAction backendOk now phrase action s in
    map id (allPhrases s') = map id (allPhrases s)
    /\ isLeechModalOpen s' = false
    /\ leechPhrase s' = None
    /\ currentPracticePhrase s' = currentPracticePhrase s
    /\ practiceReviewLog s' = practiceReviewLog s
    /\ (backendOk = false -> allPhrases s' = allPhrases s).
Proof.
  intros backendOk now phrase action s s'.
  subst s'. unfold handleLeechAction.
  destruct backendOk; cbn.
  - repeat split; try discriminate.
    rewrite leechUpdatedPhrase_id.
    apply replaceById_ids. apply leechUpdatedPhrase_id.
  - repeat split.
Qed.

Lemma handleLeechAction_keeps_list_shape_witness :
  allPhrases (handleLeechAction false 4000 sampleLeech leech_reset
                                sampleState)
  = allPhrases sampleState.
Proof.
  apply (handleLeechAction_keeps_list_shape
           false 4000 sampleLeech leech_reset sampleState).
  reflexivity.
Defined.



(** ** Deleting, moving and rewording phrases *)

(** X3. Confirming the deletion of a phrase, when the backend call
    succeeds, removes every stored phrase with that id and no other, and
    never leaves the practice view on the deleted phrase; when the backend
    call fails, or when the delete modal holds no phrase, the state is
    unchanged. *)
Theorem handleConfirmDelete_removes_exactly :
  forall (doomed : Phrase) (s : AppState),
    let s' := handleConfirmDelete true (Some doomed) s in
    (forall p : Phrase,
        In p (allPhrases s') <-> In p (allPhrases s) /\ id p <> id doomed)
    /\ findById (id doomed) (allPhrases s') = None
    /\ (forall cur : Phrase,
           currentPracticePhrase s' = Some cur ->
           id cur <> id doomed /\ currentPracticePhrase s = Some cur)
    /\ handleConfirmDelete false (Some doomed) s = s
    /\ (forall backendOk : bool, handleConfirmDelete backendOk None s = s).
Proof.
  intros doomed s s'.
  assert (Hall : allPhrases s'
                 = filter (fun p => negb (String.eqb (id p) (id doomed)))
                          (allPhrases s)).
  { subst s'. unfold handleConfirmDelete.
    destruct (currentPracticePhrase s) as [cur|];
      [destruct (String.eqb (id cur) (id doomed))|]; reflexivity. }
  repeat match goal with |- _ /\ _ => split end.
  - intros p. rewrite Hall, filter_In, negb_true_iff, String.eqb_neq.
    reflexivity.
  - rewrite Hall. unfold findById.
    destruct (find _ _) as [q|] eqn:Hq; [|reflexivity].
    apply find_some in Hq as [Hq Heq].
    apply filter_In in Hq as [_ Hq].
    rewrite Heq in Hq. discriminate.
  - intros cur. subst s'. unfold handleConfirmDelete.
    destruct (currentPracticePhrase s) as [c|] eqn:Hc;
      [destruct (String.eqb_spec (id c) (id doomed))|]; cbn;
      try discriminate.
    + rewrite Hc. intros H. injection H as <-. auto.
    + rewrite Hc. discriminate.
  - reflexivity.
  - reflexivity.
Qed.

Lemma deletedCount_positive :
  forall (callOk : nat -> bool) (phraseIds : list string),
    Nat.ltb 0 (deletedCount callOk phraseIds) = true <->
    exists i : nat, (i < List.length phraseIds)%nat /\ callOk i = true.
Proof.
  intros callOk phraseIds.
  unfold deletedCount.
  rewrite Nat.ltb_lt.
  split.
  - intros Hpos.
    destruct (filter callOk (seq 0 (List.length phraseIds))) as [|i rest]
      eqn:Hf; [cbn in Hpos; lia|].
    assert (Hin : In i (filter callOk (seq 0 (List.length phraseIds)))).
    { rewrite Hf. left. reflexivity. }
    apply filter_In in Hin as [Hseq Hok].
    apply in_seq in Hseq.
    exists i. split; [lia | exact Hok].
  - intros (i & Hlt & Hok).
    assert (Hin : In i (filter callOk (seq 0 (List.length phraseIds)))).
    { apply filter_In. split; [apply in_seq; lia | exact Hok]. }
    destruct (filter callOk (seq 0 (List.length phraseIds)));
      [contradiction | cbn; lia].
Qed.

Lemma inIds_true :
  forall (ids : list string) (key : string),
    inIds ids key = true <-> In key ids.
Proof.
  intros ids key. unfold inIds.
  rewrite existsb_exists. split.
  - intros (x & Hin & Heq). apply String.eqb_eq in Heq. subst. exact Hin.
  - intros Hin. exists key. split; [exact Hin | apply String.eqb_refl].
Qed.

(** X4. Deleting several phrases is all-or-nothing on the client: as soon
    as one backend delete call succeeds, every requested id is dropped from
    the stored list, those whose own call failed included, and the practice
    view is cleared if it showed one of them; when no call succeeds the
    state is unchanged. *)
Theorem handleConfirmDeleteMultiplePhrases_all_or_nothing :
  forall (callOk : nat -> bool) (phraseIds : list string) (s : AppState),
    let s' := handleConfirmDeleteMultiplePhrases callOk phraseIds s in
    ((exists i : nat, (i < List.length phraseIds)%nat /\ callOk i = true) ->
     (forall p : Phrase,
         In p (allPhrases s') <->
         In p (allPhrases s) /\ ~ In (id p) phraseIds)
     /\ (forall cur : Phrase,
            currentPracticePhrase s' = Some cur -> ~ In (id cur) phraseIds))
    /\ ((forall i : nat,
            (i < List.length phraseIds)%nat -> callOk i = false) ->
        s' = s).
Proof.
  intros callOk phraseIds s s'.
  subst s'. unfold handleConfirmDeleteMultiplePhrases.
  split.
  - intros Hsome.
    rewrite (proj2 (deletedCount_positive callOk phraseIds) Hsome).
    split.
    + intros p.
      assert (Hall :
                forall s1 : AppState,
                  allPhrases
                    match currentPracticePhrase s with
                    | Some cur =>
                        if inIds phraseIds (id cur)
                        then set_currentPracticePhrase None s1
                        else s1
                    | None => s1
                    end = allPhrases s1).
      { intros s1.
        destruct (currentPracticePhrase s) as [cur|];
          [destruct (inIds phraseIds (id cur))|]; reflexivity. }
      rewrite Hall. cbn [allPhrases set_allPhrases].
      rewrite filter_In, negb_true_iff.
      rewrite <- inIds_true.
      destruct (inIds phraseIds (id p)); intuition congruence.
    + intros cur.
      destruct (currentPracticePhrase s) as [c|] eqn:Hc;
        [destruct (inIds phraseIds (id c)) eqn:Hin|]; cbn;
        try discriminate.
      * rewrite Hc. intros H. injection H as <-.
        rewrite <- inIds_true. congruence.
      * rewrite Hc. discriminate.
  - intros Hnone.
    destruct (Nat.ltb 0 (deletedCount callOk phraseIds)) eqn:Hpos;
      [|reflexivity].
    apply deletedCount_positive in Hpos as (i & Hlt & Hok).
    rewrite (Hnone i Hlt) in Hok. discriminate.
Qed.

Lemma handleConfirmDeleteMultiplePhrases_all_or_nothing_witness :
  findById "p2"
    (allPhrases
       (handleConfirmDeleteMultiplePhrases
          (fun i => Nat.eqb i 0) ["p1"; "p2"] sampleState)) = None
  /\ handleConfirmDeleteMultiplePhrases (fun _ => false) ["p1"; "p2"]
                                        sampleState = sampleState.
Proof.
  destruct (handleConfirmDeleteMultiplePhrases_all_or_nothing
              (fun i => Nat.eqb i 0) ["p1"; "p2"] sampleState)
    as [Hsome _].
  destruct (handleConfirmDeleteMultiplePhrases_all_or_nothing
              (fun _ => false) ["p1"; "p2"] sampleState)
    as [_ Hnone].
  split.
  - destruct Hsome as [Hin _].
    + exists O. split; [cbn; lia | reflexivity].
    + unfold findById.
      destruct (find (fun p => String.eqb (id p) "p2") _) as [q|] eqn:Hq;
        [|reflexivity].
      apply find_some in Hq as [Hq Heq].
      apply Hin in Hq as [_ Hq].
      apply String.eqb_eq in Heq.
      exfalso. apply Hq. rewrite Heq. cbn. auto.
  - apply Hnone. reflexivity.
Defined.

Lemma handleConfirmDelete_removes_exactly_witness :
  findById "p1" (allPhrases (handleConfirmDelete true (Some samplePhrase)
                                                 sampleState)) = None
  /\ currentPracticePhrase
       (handleConfirmDelete true (Some samplePhrase) sampleState) = None.
Proof.
  destruct (handleConfirmDelete_removes_exactly samplePhrase sampleState)
    as (_ & Hgone & Hcur & _).
  split; [exact Hgone|].
  destruct (currentPracticePhrase
              (handleConfirmDelete true (Some samplePhrase) sampleState))
    as [cur|] eqn:Hc; [|reflexivity].
  destruct (Hcur cur eq_refl) as [Hne Hsame].
  injection Hsame as <-. contradiction Hne. reflexivity.
Defined.

(** X5. Marking a phrase as seen is idempotent, changes no field of any
    stored phrase other than [isNew], and leaves no stored phrase with that
    id flagged as new. *)
Theorem handleMarkPhraseAsSeen_idempotent_frame :
  forall (phraseId : string) (s : AppState),
    let s' := handleMarkPhraseAsSeen phraseId s in
    handleMarkPhraseAsSeen phraseId s' = s'
    /\ map (set_isNew None) (allPhrases s')
       = map (set_isNew None) (allPhrases s)
    /\ (forall p : Phrase,
           In p (allPhrases s') -> id p = phraseId -> isNewFlag p = false)
    /\ (forall p : Phrase,
           In p (allPhrases s) -> id p <> phraseId -> In p (allPhrases s')).
Proof.
  intros phraseId s s'.
  set (hit := fun p : Phrase => String.eqb (id p) phraseId && isNewFlag p).
  set (clear := fun p : Phrase => if hit p then set_isNew None p else p).
  assert (Hclear_hit : forall p, hit (clear p) = false).
  { intros p. unfold clear. destruct (hit p) eqn:Hp; [|exact Hp].
    unfold hit. cbn. unfold isNewFlag. cbn. apply andb_false_r. }
  assert (Hs' : allPhrases s' = map clear (allPhrases s)).
  { subst s'. unfold handleMarkPhraseAsSeen. fold hit.
    destruct (existsb hit (allPhrases s)) eqn:Hex; [reflexivity|].
    symmetry. rewrite <- (map_id (allPhrases s)) at 2.
    apply map_ext_in. intros p Hp. unfold clear.
    destruct (hit p) eqn:Hhit; [|reflexivity].
    assert (existsb hit (allPhrases s) = true)
      by (apply existsb_exists; eauto).
    congruence. }
  assert (Hnohit : existsb hit (allPhrases s') = false).
  { rewrite Hs'. apply not_true_is_false. intros Hex.
    apply existsb_exists in Hex as (q & Hq & Hhit).
    apply in_map_iff in Hq as (p & <- & _).
    rewrite Hclear_hit in Hhit. discriminate. }
  repeat match goal with |- _ /\ _ => split end.
  - unfold handleMarkPhraseAsSeen at 1. fold hit. rewrite Hnohit.
    reflexivity.
  - rewrite Hs', map_map. apply map_ext. intros p. unfold clear.
    destruct (hit p); reflexivity.
  - intros p Hp Hid.
    destruct (isNewFlag p) eqn:Hflag; [|reflexivity].
    assert (Hex : existsb hit (allPhrases s') = true).
    { apply existsb_exists. exists p. split; [exact Hp|].
      unfold hit. rewrite Hid, String.eqb_refl, Hflag. reflexivity. }
    congruence.
  - intros p Hp Hne. rewrite Hs'.
    apply in_map_iff. exists p. split; [|exact Hp].
    unfold clear, hit.
    apply String.eqb_neq in Hne. rewrite Hne. reflexivity.
Qed.

Lemma handleMarkPhraseAsSeen_idempotent_frame_witness :
  In sampleLeech (allPhrases (handleMarkPhraseAsSeen "p1" sampleState)).
Proof.
  apply (handleMarkPhraseAsSeen_idempotent_frame "p1" sampleState).
  - cbn. auto.
  - discriminate.
Defined.

(** Progress of a phrase: everything the scheduler reads and writes. *)
Lemma set_category_progress :
  forall (v : string) (p : Phrase),
    masteryLevel (set_category v p) = masteryLevel p
    /\ knowCount (set_category v p) = knowCount p
    /\ knowStreak (set_category v p) = knowStreak p
    /\ lapses (set_category v p) = lapses p
    /\ lastReviewedAt (set_category v p) = lastReviewedAt p
    /\ nextReviewAt (set_category v p) = nextReviewAt p
    /\ isMastered (set_category v p) = isMastered p.
Proof. repeat split. Qed.



(** X7. Moving or rewording a phrase whose id is not in the stored list
    does nothing, whether or not the backend would have accepted the
    call. *)
Theorem edits_ignore_unknown_id :
  forall (backendOk : bool) (phraseId newCategoryId newLearning : string)
         (newNative : option string) (s : AppState),
    (forall p : Phrase, In p (allPhrases s) -> id p <> phraseId) ->
    handleUpdatePhraseCategory backendOk phraseId newCategoryId s = s
    /\ handlePhraseImproved backendOk phraseId newLearning newNative s = s
    /\ handleMarkPhraseAsSeen phraseId s = s.
Proof.
  intros backendOk phraseId newCategoryId newLearning newNative s Hnone.
  assert (Hfind : findById phraseId (allPhrases s) = None).
  { unfold findById.
    destruct (find _ _) as [q|] eqn:Hq; [|reflexivity].
    apply find_some in Hq as [Hin Heq].
    apply String.eqb_eq in Heq.
    exfalso. exact (Hnone q Hin Heq). }
  unfold handleUpdatePhraseCategory, handlePhraseImproved,
    handleMarkPhraseAsSeen.
  rewrite Hfind.
  repeat split.
  destruct (existsb _ _) eqn:Hex; [|reflexivity].
  apply existsb_exists in Hex as (q & Hin & Hq).
  apply andb_true_iff in Hq as [Hq _].
  apply String.eqb_eq in Hq.
  exfalso. exact (Hnone q Hin Hq).
Qed.

Lemma edits_ignore_unknown_id_witness :
  handleUpdatePhraseCategory true "p9" "travel" sampleState = sampleState.
Proof.
  apply (edits_ignore_unknown_id true "p9" "travel" "x" None sampleState).
  cbn. intros p [<- | [<- | [<- | []]]]; discriminate.
Defined.

(** ** Moving between practice cards *)

Lemma lastId_snoc :
  forall (history : list string) (x : string),
    lastId (history ++ [x]) = Some x.
Proof.
  intros history x. unfold lastId.
  rewrite length_app. cbn [List.length].
  replace (List.length history + 1 - 1)%nat with (List.length history)
    by lia.
  rewrite nth_error_app2 by lia.
  rewrite Nat.sub_diag. reflexivity.
Qed.

Lemma sliceRange_drop_last :
  forall (A : Type) (l : list A) (x : A),
    sliceRange 0 (-1) (l ++ [x]) = l.
Proof.
  intros A l x. unfold sliceRange.
  rewrite length_app. cbn [List.length].
  cbn [Z.ltb Z.compare].
  replace (Z.min 0 (Z.of_nat (List.length l + 1))) with 0 by lia.
  replace (Z.to_nat
             (Z.max (Z.of_nat (List.length l + 1) + -1) 0 - 0))
    with (List.length l) by lia.
  cbn [Z.to_nat skipn].
  rewrite firstn_app, Nat.sub_diag, firstn_all. cbn.
  apply app_nil_r.
Qed.

(** X8. While a card transition is under way every further practice
    request is ignored: with [practiceIsExiting] set, [transitionToNext],
    [handlePracticeSwipeRight] and [handlePracticeUpdateMastery] return the
    state untouched, start no timer and report no leech; and a request that
    is accepted sets the flag, which its timer clears again. *)
Theorem practice_requests_debounced :
  forall (updatePhraseMastery :
            Phrase -> PracticeReviewAction -> list Category.t -> Phrase)
         (isLeech : Phrase -> bool)
         (selectNextPhrase : list Phrase -> option string -> option Phrase)
         (categories : list Category.t) (env : Env)
         (a : PracticeReviewAction) (direction : AnimationDirection)
         (pool : list Phrase) (s : AppState),
    (practiceIsExiting s = true ->
     transitionToNext direction pool s = (s, None)
     /\ handlePracticeSwipeRight s = (s, None)
     /\ handlePracticeUpdateMastery updatePhraseMastery isLeech categories
                                    env a s = (s, false))
    /\ (forall (s1 : AppState) (t : PracticeTimer),
           transitionToNext direction pool s = (s1, Some t)
           \/ handlePracticeSwipeRight s = (s1, Some t) ->
           practiceIsExiting s = false
           /\ practiceIsExiting s1 = true
           /\ practiceIsExiting (runTimer selectNextPhrase t s1) = false).
Proof.
  intros upd isLeech sel categories env a direction pool s.
  split.
  - intros Hexit.
    unfold transitionToNext, handlePracticeSwipeRight.
    rewrite Hexit. cbn [orb].
    repeat split.
    unfold handlePracticeUpdateMastery.
    destruct (currentPracticePhrase s); [rewrite Hexit|]; reflexivity.
  - intros s1 t.
    unfold transitionToNext, handlePracticeSwipeRight.
    destruct (practiceIsExiting s) eqn:Hexit; cbn [orb].
    + intros [H | H]; discriminate.
    + intros [H | H].
      * injection H as <- <-.
        repeat split.
      * destruct (Nat.eqb (List.length (cardHistory s)) 0);
          [discriminate|].
        injection H as <- <-.
        repeat split.
Qed.

Lemma practice_requests_debounced_witness :
  handlePracticeSwipeRight (set_practiceIsExiting true sampleState)
  = (set_practiceIsExiting true sampleState, None).
Proof.
  apply (practice_requests_debounced
           (updateAt 4000) srsService.isLeech (selectAt 4000) [] sampleEnv
           know right_dir [] (set_practiceIsExiting true sampleState)).
  reflexivity.
Defined.

(** X9. Going to the next card and then back returns to the card one was
    on. From a state with no transition under way and a current phrase
    whose id is in the stored list, [transitionToNext] and its timer
    followed by [handlePracticeSwipeRight] and its timer show the stored
    phrase with that id again, restore the card history, change no stored
    phrase and leave no transition under way, whichever phrase the
    selector chose in between. *)
Theorem next_then_back_round_trip :
  forall (selectNextPhrase : list Phrase -> option string -> option Phrase)
         (pool : list Phrase) (s : AppState) (cur stored : Phrase),
    practiceIsExiting s = false ->
    currentPracticePhrase s = Some cur ->
    findById (id cur) (allPhrases s) = Some stored ->
    let forward :=
      thenTimer selectNextPhrase (transitionToNext right_dir pool s) in
    let back :=
      thenTimer selectNextPhrase (handlePracticeSwipeRight forward) in
    cardHistory forward = cardHistory s ++ [id cur]
    /\ currentPracticePhrase forward
       = selectNextPhrase pool (Some (id cur))
    /\ currentPracticePhrase back = Some stored
    /\ cardHistory back = cardHistory s
    /\ allPhrases back = allPhrases s
    /\ practiceIsExiting back = false
    /\ isPracticeAnswerRevealed back = false.
Proof.
  intros sel pool s cur stored Hexit Hcur Hfind forward back.
  assert (Hf : forward
               = set_practiceIsExiting
                   false
                   (changePracticePhrase
                      (sel pool (Some (id cur)))
                      (set_cardHistory (cardHistory s ++ [id cur])
                         (set_currentPracticePhrase
                            (Some cur) (set_practiceIsExiting true s))))).
  { subst forward. unfold thenTimer, transitionToNext.
    rewrite Hexit. cbn [snd fst runTimer].
    unfold selectNextPracticePhrase. rewrite Hcur. reflexivity. }
  assert (Hfe : practiceIsExiting forward = false)
    by (rewrite Hf; reflexivity).
  assert (Hfh : cardHistory forward = cardHistory s ++ [id cur])
    by (rewrite Hf; reflexivity).
  assert (Hfa : allPhrases forward = allPhrases s)
    by (rewrite Hf; reflexivity).
  assert (Hfc : currentPracticePhrase forward = sel pool (Some (id cur)))
    by (rewrite Hf; reflexivity).
  assert (Hswipe : handlePracticeSwipeRight forward
                   = (set_practiceIsExiting true forward,
                      Some (SwipeTimer (cardHistory s ++ [id cur])
                                       (allPhrases s)))).
  { unfold handlePracticeSwipeRight.
    rewrite Hfe, Hfh, Hfa, length_app. cbn [List.length orb].
    replace (Nat.eqb (List.length (cardHistory s) + 1) 0) with false
      by (symmetry; apply Nat.eqb_neq; lia).
    reflexivity. }
  assert (Hb : back
               = set_practiceIsExiting
                   false
                   (changePracticePhrase
                      (Some stored)
                      (set_cardHistory
                         (cardHistory s)
                         (set_practiceIsExiting true forward)))).
  { subst back. unfold thenTimer. rewrite Hswipe.
    cbn [snd fst runTimer].
    rewrite lastId_snoc, Hfind.
    cbn [cardHistory set_practiceIsExiting].
    rewrite Hfh, sliceRange_drop_last.
    reflexivity. }
  clearbody forward back.
  rewrite Hb.
  cbn [cardHistory currentPracticePhrase allPhrases practiceIsExiting
       isPracticeAnswerRevealed set_practiceIsExiting changePracticePhrase
       set_currentPracticePhrase set_cardFlags set_cardHistory].
  repeat split; assumption.
Qed.

Lemma next_then_back_round_trip_witness :
  currentPracticePhrase
    (thenTimer (selectAt 4000)
       (handlePracticeSwipeRight
          (thenTimer (selectAt 4000)
             (transitionToNext right_dir [samplePhrase; sampleNew]
                               sampleState))))
  = Some samplePhrase.
Proof.
  apply (next_then_back_round_trip
           (selectAt 4000) [samplePhrase; sampleNew] sampleState
           samplePhrase samplePhrase); reflexivity.
Defined.

(** X10. Going back never drops a history entry it cannot show: when the
    card history is empty the request is ignored, and when the last id of
    the history is no longer in the stored list the timer leaves the
    current phrase and the history as they are. *)
Theorem swipe_back_edge_cases :
  forall (selectNextPhrase : list Phrase -> option string -> option Phrase)
         (s : AppState),
    (cardHistory s = [] -> handlePracticeSwipeRight s = (s, None))
    /\ (forall lastPhraseId : string,
           practiceIsExiting s = false ->
           lastId (cardHistory s) = Some lastPhraseId ->
           findById lastPhraseId (allPhrases s) = None ->
           let back :=
             thenTimer selectNextPhrase (handlePracticeSwipeRight s) in
           cardHistory back = cardHistory s
           /\ currentPracticePhrase back = currentPracticePhrase s
           /\ practiceIsExiting back = false).
Proof.
  intros sel s. split.
  - intros Hempty. unfold handlePracticeSwipeRight.
    rewrite Hempty. cbn. rewrite orb_true_r. reflexivity.
  - intros lastPhraseId Hexit Hlast Hfind back.
    subst back. unfold thenTimer, handlePracticeSwipeRight.
    rewrite Hexit. cbn [orb].
    destruct (cardHistory s) as [|h rest] eqn:Hh;
      [discriminate Hlast|].
    cbn [List.length Nat.eqb snd fst runTimer].
    rewrite Hlast, Hfind.
    repeat split. exact Hh.
Qed.

Lemma swipe_back_edge_cases_witness :
  handlePracticeSwipeRight sampleState = (sampleState, None).
Proof.
  apply (swipe_back_edge_cases (selectAt 4000) sampleState).
  reflexivity.
Defined.

(** X11. A phrase is in the practice pool exactly when it is stored, not
    mastered, its category is switched on in the settings (a category with
    no entry counts as switched off) and, unless the filter is ['all'], its
    category is the filtered one; the pool keeps the order of the stored
    list and, with it, distinct ids. *)
Theorem practicePool_membership :
  forall (enabledCategories : list (string * bool))
         (practiceCategoryFilter : string) (phrases : list Phrase),
    let pool :=
      practicePool practiceCategoryFilter
                   (unmasteredPhrases enabledCategories phrases) in
    (forall p : Phrase,
        In p pool <->
        In p phrases
        /\ isMastered p = false
        /\ lookupEnabled enabledCategories (category p) = Some true
        /\ (practiceCategoryFilter = "all"
            \/ category p = practiceCategoryFilter))
    /\ (NoDup (map id phrases) -> NoDup (map id pool))
    /\ (List.length pool <= List.length phrases)%nat.
Proof.
  intros enabled flt phrases pool.
  assert (Htruthy : forall o, truthy o = true <-> o = Some true).
  { intros [[|]|]; cbn; split; congruence. }
  subst pool. unfold practicePool, unmasteredPhrases.
  destruct (String.eqb_spec flt "all") as [Hall | Hall].
  - split; [|split].
    + intros p. rewrite filter_In, andb_true_iff, negb_true_iff, Htruthy.
      tauto.
    + apply NoDup_map_filter.
    + apply filter_length_le.
  - split; [|split].
    + intros p.
      rewrite !filter_In, andb_true_iff, negb_true_iff, Htruthy,
        String.eqb_eq.
      tauto.
    + intros Hnd. apply NoDup_map_filter, NoDup_map_filter. exact Hnd.
    + etransitivity; apply filter_length_le.
Qed.

Lemma practicePool_membership_witness :
  NoDup (map id (practicePool "greetings"
                   (unmasteredPhrases [("greetings", true)]
                                      [samplePhrase; sampleLeech]))).
Proof.
  apply (practicePool_membership
           [("greetings", true)] "greetings" [samplePhrase; sampleLeech]).
  repeat constructor; cbn; intuition discriminate.
Defined.

(** ** Invariants of the handlers *)

Lemma appendPracticeReviewLog_bounded :
  forall (entry : LogEntry.t) (s : AppState),
    Z.of_nat (List.length (practiceReviewLog s))
    <= PRACTICE_REVIEW_LOG_LIMIT ->
    Z.of_nat (List.length
                (practiceReviewLog (appendPracticeReviewLog entry s)))
    <= PRACTICE_REVIEW_LOG_LIMIT.
Proof.
  intros entry s Hlen.
  unfold appendPracticeReviewLog.
  destruct (String.eqb (userId s) ""); [exact Hlen|].
  cbn [practiceReviewLog set_practiceReviewLog].
  rewrite trimmedLog_length. lia.
Qed.

Lemma updatePhraseMasteryAndCache_fields :
  forall (upd : Phrase -> PracticeReviewAction -> list Category.t -> Phrase)
         (isLeech : Phrase -> bool) (categories : list Category.t)
         (env : Env) (p : Phrase) (a : PracticeReviewAction) (s : AppState),
    let r := fst (updatePhraseMasteryAndCache upd isLeech categories env p
                                              a s) in
    allPhrases r = replaceById (id p) (upd p a categories) (allPhrases s)
    /\ isLeechModalOpen r = isLeechModalOpen s
    /\ leechPhrase r = leechPhrase s
    /\ practiceIsExiting r = practiceIsExiting s
    /\ cardHistory r = cardHistory s
    /\ practiceReviewLog r
       = practiceReviewLog
           (appendPracticeReviewLog
              (reviewLogEntry upd isLeech categories env p a s) s)
    /\ currentPracticePhrase r
       = match currentPracticePhrase s with
         | Some cur =>
             if String.eqb (id cur) (id p)
             then Some (upd p a categories)
             else Some cur
         | None => None
         end.
Proof.
  intros upd isLeech categories env p a s r.
  subst r.
  unfold updatePhraseMasteryAndCache, reviewLogEntry,
    appendPracticeReviewLog.
  cbn [fst currentPracticePhrase set_allPhrases].
  destruct (currentPracticePhrase s) as [cur|] eqn:Hc;
    [destruct (String.eqb (id cur) (id p))|];
    cbn [userId languageProfile practiceReviewLog set_allPhrases
         set_currentPracticePhrase];
    destruct (String.eqb (userId s) ""); repeat split;
    cbn [currentPracticePhrase set_practiceReviewLog set_allPhrases];
    exact Hc.
Qed.

Section StepsKeepInvariant.

Variable updatePhraseMastery :
  Phrase -> PracticeReviewAction -> list Category.t -> Phrase.
Variable isLeech : Phrase -> bool.
Variable selectNextPhrase : list Phrase -> option string -> option Phrase.
Variable categories : list Category.t.

Hypothesis update_keeps_id :
  forall (p : Phrase) (a : PracticeReviewAction),
    id (updatePhraseMastery p a categories) = id p.

Lemma review_keeps_invariant :
  forall (env : Env) (a : PracticeReviewAction) (s : AppState),
    stateInvariant s ->
    stateInvariant
      (fst (handlePracticeUpdateMastery updatePhraseMastery isLeech
                                        categories env a s)).
Proof.
  intros env a s (Hmodal & Hlog & Hids).
  unfold handlePracticeUpdateMastery.
  destruct (currentPracticePhrase s) as [p|];
    [|exact (conj Hmodal (conj Hlog Hids))].
  destruct (practiceIsExiting s); [exact (conj Hmodal (conj Hlog Hids))|].
  pose proof (updatePhraseMasteryAndCache_fields
                updatePhraseMastery isLeech categories env p a s)
    as (Hall & Hopen & Hphrase & _ & _ & Hl & _).
  destruct (updatePhraseMasteryAndCache _ _ _ _ _ _ _) as [s1 u].
  cbn [fst] in *.
  assert (Hids1 : NoDup (map id (allPhrases s1))).
  { rewrite Hall, replaceById_ids; [exact Hids | apply update_keeps_id]. }
  assert (Hlog1 : Z.of_nat (List.length (practiceReviewLog s1))
                  <= PRACTICE_REVIEW_LOG_LIMIT).
  { rewrite Hl. apply appendPracticeReviewLog_bounded. exact Hlog. }
  destruct ((PracticeReviewAction_eqb a forgot
             || PracticeReviewAction_eqb a dont_know)
            && (negb (isLeech p)
                && isLeech (updatePhraseMastery p a categories)));
    cbn [fst]; unfold stateInvariant;
    cbn [isLeechModalOpen leechPhrase practiceReviewLog allPhrases
         set_leechModal set_currentPracticePhrase set_cardFlags].
  - refine (conj _ (conj Hlog1 Hids1)).
    split; [discriminate | reflexivity].
  - rewrite Hopen, Hphrase. exact (conj Hmodal (conj Hlog1 Hids1)).
Qed.

Lemma step_keeps_invariant :
  forall s s' : AppState,
    step updatePhraseMastery isLeech selectNextPhrase categories s s' ->
    stateInvariant s -> stateInvariant s'.
Proof.
  intros s s' Hstep Hinv.
  destruct Hstep.
  - apply review_keeps_invariant; exact Hinv.
  - destruct Hinv as (Hmodal & Hlog & Hids).
    unfold handleLeechAction, stateInvariant.
    cbn [isLeechModalOpen leechPhrase practiceReviewLog allPhrases
         set_leechModal].
    destruct backendOk; cbn [practiceReviewLog allPhrases set_allPhrases].
    + rewrite replaceById_ids by reflexivity.
      refine (conj _ (conj Hlog Hids)).
      split; [discriminate | intros H; contradiction H; reflexivity].
    + refine (conj _ (conj Hlog Hids)).
      split; [discriminate | intros H; contradiction H; reflexivity].
  - unfold selectNextPracticePhrase.
    destruct (currentPracticePhrase s); exact Hinv.
  - unfold transitionToNext.
    destruct (practiceIsExiting s); exact Hinv.
  - unfold handlePracticeSwipeRight.
    destruct (practiceIsExiting s || _); exact Hinv.
  - destruct t as [direction cur pool | history phrases]; cbn [runTimer].
    + destruct direction; [exact Hinv|].
      unfold selectNextPracticePhrase.
      cbn [currentPracticePhrase set_currentPracticePhrase].
      destruct cur; exact Hinv.
    + destruct (match lastId history with
                | Some l => findById l phrases
                | None => None
                end); exact Hinv.
  - unfold handleConfirmDelete.
    destruct phraseToDelete as [doomed|]; [|exact Hinv].
    destruct backendOk; [|exact Hinv].
    destruct Hinv as (Hmodal & Hlog & Hids).
    assert (Hnd : NoDup (map id (filter
                                   (fun p => negb (String.eqb (id p)
                                                              (id doomed)))
                                   (allPhrases s))))
      by (apply NoDup_map_filter; exact Hids).
    destruct (currentPracticePhrase s) as [cur|];
      [destruct (String.eqb (id cur) (id doomed))|];
      exact (conj Hmodal (conj Hlog Hnd)).
  - unfold handleConfirmDeleteMultiplePhrases.
    destruct (Nat.ltb 0 (deletedCount callOk phraseIds)); [|exact Hinv].
    destruct Hinv as (Hmodal & Hlog & Hids).
    assert (Hnd : NoDup (map id (filter
                                   (fun p => negb (inIds phraseIds (id p)))
                                   (allPhrases s))))
      by (apply NoDup_map_filter; exact Hids).
    destruct (currentPracticePhrase s) as [cur|];
      [destruct (inIds phraseIds (id cur))|];
      exact (conj Hmodal (conj Hlog Hnd)).
  - unfold handleMarkPhraseAsSeen.
    destruct (existsb _ (allPhrases s)); [|exact Hinv].
    destruct Hinv as (Hmodal & Hlog & Hids).
    refine (conj Hmodal (conj Hlog _)).
    cbn [allPhrases set_allPhrases].
    rewrite map_map.
    erewrite map_ext; [exact Hids|].
    intros p. destruct (_ && _); reflexivity.
  - unfold handleUpdatePhraseCategory.
    destruct (findById phraseId (allPhrases s)) as [original|] eqn:Hfind;
      [|exact Hinv].
    destruct backendOk; [|exact Hinv].
    destruct Hinv as (Hmodal & Hlog & Hids).
    refine (conj Hmodal (conj Hlog _)).
    cbn [allPhrases set_allPhrases].
    rewrite replaceById_ids; [exact Hids|].
    unfold findById in Hfind. apply find_some in Hfind as [_ H].
    apply String.eqb_eq in H. exact H.
  - unfold handlePhraseImproved.
    destruct (findById phraseId (allPhrases s)) as [original|] eqn:Hfind;
      [|exact Hinv].
    destruct backendOk; [|exact Hinv].
    destruct Hinv as (Hmodal & Hlog & Hids).
    refine (conj Hmodal (conj Hlog _)).
    cbn [allPhrases set_allPhrases].
    rewrite replaceById_ids; [exact Hids|].
    unfold findById in Hfind. apply find_some in Hfind as [_ H].
    apply String.eqb_eq in H. exact H.
Qed.

End StepsKeepInvariant.

(** X12. Every handler keeps the state well formed. Starting from a state
    in which the leech modal is open exactly when it holds a phrase, the
    review log has at most 5000 entries and the stored phrases have
    pairwise distinct ids, every state reached by any sequence of reviews,
    leech actions, card transitions and their timers, deletions, moves and
    edits has the same three properties, provided the scheduler returns a
    phrase with the id it was given. *)
Theorem handlers_keep_state_invariant :
  forall (updatePhraseMastery :
            Phrase -> PracticeReviewAction -> list Category.t -> Phrase)
         (isLeech : Phrase -> bool)
         (selectNextPhrase : list Phrase -> option string -> option Phrase)
         (categories : list Category.t) (s0 s : AppState),
    (forall (p : Phrase) (a : PracticeReviewAction),
        id (updatePhraseMastery p a categories) = id p) ->
    stateInvariant s0 ->
    reachable updatePhraseMastery isLeech selectNextPhrase categories s0 s ->
    stateInvariant s.
Proof.
  intros upd isLeech sel categories s0 s Hid Hinv Hreach.
  induction Hreach as [|s s' _ IH Hstep]; [exact Hinv|].
  eapply step_keeps_invariant; eauto.
Qed.

Lemma handlers_keep_state_invariant_witness :
  stateInvariant
    (handleLeechAction true 9000 sampleLeech leech_reset
       (fst (handlePracticeUpdateMastery (updateAt 4000) srsService.isLeech
                                         [] sampleEnv dont_know
                                         sampleState))).
Proof.
  apply (handlers_keep_state_invariant
           (updateAt 4000) srsService.isLeech (selectAt 4000) []
           sampleState).
  - intros p a. destruct a; reflexivity.
  - unfold stateInvariant. cbn. split; [|split].
    + split; [discriminate | intros H; contradiction H; reflexivity].
    + unfold PRACTICE_REVIEW_LOG_LIMIT. lia.
    + repeat constructor; cbn; intuition discriminate.
  - eapply reach_step; [eapply reach_step; [apply reach_start|]|].
    + apply (step_review (updateAt 4000) srsService.isLeech (selectAt 4000)
                         [] sampleEnv dont_know sampleState).
    + apply step_leech_action.
Defined.

(** X13. A review that is processed is always stored and logged, whether
    or not it opens the leech modal: the stored list has the updated phrase
    under the reviewed id, the practice view shows the updated phrase, and
    the log is what appending the review's entry gives, one entry longer
    when a user is signed in and the log is below its limit. The modal is
    opened, holding the updated phrase, exactly when the call returns
    [true]; otherwise the modal is left as it was, the answer is revealed
    unless the action was [know], and the card counts as evaluated only
    for [know]. *)
Theorem processed_review_effects :
  forall (updatePhraseMastery :
            Phrase -> PracticeReviewAction -> list Category.t -> Phrase)
         (isLeech : Phrase -> bool) (categories : list Category.t)
         (env : Env) (a : PracticeReviewAction) (s : AppState) (p : Phrase),
    currentPracticePhrase s = Some p ->
    practiceIsExiting s = false ->
    let u := updatePhraseMastery p a categories in
    let entry :=
      reviewLogEntry updatePhraseMastery isLeech categories env p a s in
    let s' := fst (handlePracticeUpdateMastery updatePhraseMastery isLeech
                                               categories env a s) in
    let shown := snd (handlePracticeUpdateMastery updatePhraseMastery isLeech
                                                  categories env a s) in
    allPhrases s' = replaceById (id p) u (allPhrases s)
    /\ currentPracticePhrase s' = Some u
    /\ practiceReviewLog s'
       = practiceReviewLog (appendPracticeReviewLog entry s)
    /\ (userId s <> "" ->
        Z.of_nat (List.length (practiceReviewLog s))
        < PRACTICE_REVIEW_LOG_LIMIT ->
        practiceReviewLog s' = practiceReviewLog s ++ [entry])
    /\ (shown = true ->
        isLeechModalOpen s' = true /\ leechPhrase s' = Some u)
    /\ (shown = false ->
        isLeechModalOpen s' = isLeechModalOpen s
        /\ leechPhrase s' = leechPhrase s
        /\ practiceCardEvaluated s' = PracticeReviewAction_eqb a know
        /\ isPracticeAnswerRevealed s'
           = if PracticeReviewAction_eqb a know
             then isPracticeAnswerRevealed s
             else true).
Proof.
  intros upd isLeech categories env a s p Hcur Hexit u entry s' shown.
  pose proof (updatePhraseMasteryAndCache_fields upd isLeech categories env
                                                 p a s)
    as (Hall & Hopen & Hphrase & _ & _ & Hlog & Hc).
  rewrite Hcur, String.eqb_refl in Hc.
  assert (Hsnd : snd (updatePhraseMasteryAndCache upd isLeech categories env
                                                  p a s) = u)
    by reflexivity.
  assert (Hrev : isPracticeAnswerRevealed
                   (fst (updatePhraseMasteryAndCache upd isLeech categories
                                                     env p a s))
                 = isPracticeAnswerRevealed s).
  { unfold updatePhraseMasteryAndCache, appendPracticeReviewLog.
    cbn [fst currentPracticePhrase set_allPhrases].
    rewrite Hcur, String.eqb_refl.
    cbn [userId set_currentPracticePhrase set_allPhrases].
    destruct (String.eqb (userId s) ""); reflexivity. }
  subst s' shown.
  unfold handlePracticeUpdateMastery.
  rewrite Hcur, Hexit.
  destruct (updatePhraseMasteryAndCache upd isLeech categories env p a s)
    as [s1 u1].
  cbn [fst snd] in *. subst u1.
  assert (Hgrow : userId s <> "" ->
                  Z.of_nat (List.length (practiceReviewLog s))
                  < PRACTICE_REVIEW_LOG_LIMIT ->
                  practiceReviewLog s1 = practiceReviewLog s ++ [entry]).
  { intros Huser Hlt. rewrite Hlog.
    unfold appendPracticeReviewLog.
    apply String.eqb_neq in Huser. rewrite Huser.
    cbn [practiceReviewLog set_practiceReviewLog].
    destruct (trimmedLog_suffix (practiceReviewLog s) entry) as (Hsuf & _).
    fold entry. rewrite Hsuf.
    unfold PRACTICE_REVIEW_LOG_LIMIT in *.
    replace (Z.to_nat (Z.of_nat (List.length (practiceReviewLog s)) + 1
                       - 5000)) with O by lia.
    reflexivity. }
  destruct ((PracticeReviewAction_eqb a forgot
             || PracticeReviewAction_eqb a dont_know)
            && (negb (isLeech p) && isLeech (upd p a categories)));
    cbn [fst snd allPhrases currentPracticePhrase practiceReviewLog
         isLeechModalOpen leechPhrase practiceCardEvaluated
         isPracticeAnswerRevealed set_leechModal set_currentPracticePhrase
         set_cardFlags].
  - repeat split; try assumption; discriminate.
  - repeat split; try assumption; try discriminate.
    rewrite Hrev. destruct a; reflexivity.
Qed.

Lemma processed_review_effects_witness :
  practiceReviewLog
    (fst (handlePracticeUpdateMastery (updateAt 4000) srsService.isLeech []
                                      sampleEnv know sampleState))
  = [reviewLogEntry (updateAt 4000) srsService.isLeech [] sampleEnv
                    samplePhrase know sampleState].
Proof.
  destruct (processed_review_effects
              (updateAt 4000) srsService.isLeech [] sampleEnv know
              sampleState samplePhrase eq_refl eq_refl)
    as (_ & _ & _ & Hgrow & _).
  apply Hgrow.
  - discriminate.
  - cbn. unfold PRACTICE_REVIEW_LOG_LIMIT. lia.
Defined.

(** ** Storage keys and the legacy migration *)

Lemma string_app_inv_head :
  forall a b c : string, (a ++ b)%string = (a ++ c)%string -> b = c.
Proof.
  induction a as [|ch a IH]; cbn; intros b c H; [exact H|].
  injection H as H. apply IH; exact H.
Qed.

Lemma string_length_app :
  forall a b : string,
    String.length (a ++ b) = (String.length a + String.length b)%nat.
Proof.
  induction a as [|ch a IH]; cbn; intros b; [reflexivity|].
  rewrite IH. reflexivity.
Qed.

Lemma string_app_inv_tail :
  forall a b c : string, (a ++ c)%string = (b ++ c)%string -> a = b.
Proof.
  induction a as [|ch a IH]; intros b c H.
  - destruct b as [|ch' b]; [reflexivity|].
    apply (f_equal String.length) in H.
    cbn in H. rewrite string_length_app in H. lia.
  - destruct b as [|ch' b].
    + apply (f_equal String.length) in H.
      cbn in H. rewrite string_length_app in H. lia.
    + cbn in H. injection H as -> H.
      f_equal. apply (IH b c). exact H.
Qed.

(** X14. Storage keys separate users: for the same base key and the same
    language profile (or none), two different non-empty user ids never get
    the same key. *)
Theorem getStorageKey_separates_users :
  forall (baseKey u1 u2 : string) (profile : option LanguageProfile),
    u1 <> "" -> u2 <> "" -> u1 <> u2 ->
    getStorageKey baseKey (Some u1) profile
    <> getStorageKey baseKey (Some u2) profile.
Proof.
  intros baseKey u1 u2 profile H1 H2 Hne.
  unfold getStorageKey.
  apply String.eqb_neq in H1, H2. rewrite H1, H2.
  intros Heq. apply Hne.
  destruct profile as [lp|].
  - apply string_app_inv_head in Heq.
    apply string_app_inv_head in Heq.
    eapply string_app_inv_tail. exact Heq.
  - apply string_app_inv_head in Heq.
    apply string_app_inv_head in Heq. exact Heq.
Qed.

Lemma getStorageKey_separates_users_witness :
  getStorageKey "userPhrases" (Some "u1") None
  <> getStorageKey "userPhrases" (Some "u2") None.
Proof.
  apply (getStorageKey_separates_users "userPhrases" "u1" "u2" None);
    discriminate.
Defined.

Section Migration.

Variables legacyKey newKey : string.
Hypothesis keys_differ : legacyKey <> newKey.

Lemma migrateKey_at :
  forall (st : Storage) (k : string),
    migrateKey legacyKey newKey st k
    = if truthyString (st legacyKey) && negb (truthyString (st newKey))
      then if String.eqb k legacyKey then None
           else if String.eqb k newKey then st legacyKey
                else st k
      else st k.
Proof.
  intros st k.
  unfold migrateKey, getItem, removeItem, setItem.
  destruct (st legacyKey) as [legacy|] eqn:Hl; cbn [truthyString];
    [|reflexivity].
  destruct (negb (String.eqb legacy "")); cbn [andb]; [|reflexivity].
  destruct (negb (truthyString (st newKey))); [|reflexivity].
  reflexivity.
Qed.

Lemma migrateKey_idempotent :
  forall (st : Storage) (k : string),
    migrateKey legacyKey newKey (migrateKey legacyKey newKey st) k
    = migrateKey legacyKey newKey st k.
Proof.
  intros st k.
  rewrite (migrateKey_at (migrateKey legacyKey newKey st) k).
  rewrite !(migrateKey_at st).
  rewrite String.eqb_refl.
  destruct (truthyString (st legacyKey) && negb (truthyString (st newKey)))
    eqn:Hgo; [|rewrite Hgo; reflexivity].
  reflexivity.
Qed.

End Migration.

Section MigrationOfBoth.

Variables legacyP newP legacyC newC : string.
Hypothesis P_differ : legacyP <> newP.
Hypothesis C_differ : legacyC <> newC.
Hypothesis legacy_differ : legacyP <> legacyC.
Hypothesis new_differ : newP <> newC.
Hypothesis cross1 : legacyP <> newC.
Hypothesis cross2 : legacyC <> newP.

Lemma migrateBoth_at :
  forall (st : Storage) (k : string),
    migrateTwoKeys legacyP newP legacyC newC st k
    = if String.eqb k legacyP
      then if shouldMove st legacyP newP then None else st k
      else if String.eqb k newP
           then if shouldMove st legacyP newP then st legacyP else st k
           else if String.eqb k legacyC
                then if shouldMove st legacyC newC then None else st k
                else if String.eqb k newC
                     then if shouldMove st legacyC newC then st legacyC
                          else st k
                     else st k.
Proof.
  intros st k.
  unfold migrateTwoKeys, shouldMove.
  rewrite (migrateKey_at legacyC newC).
  rewrite !(migrateKey_at legacyP newP).
  rewrite (proj2 (String.eqb_neq legacyC legacyP))
    by (intros H; apply legacy_differ; congruence).
  rewrite (proj2 (String.eqb_neq legacyC newP)) by exact cross2.
  rewrite (proj2 (String.eqb_neq newC legacyP))
    by (intros H; apply cross1; congruence).
  rewrite (proj2 (String.eqb_neq newC newP))
    by (intros H; apply new_differ; congruence).
  destruct (String.eqb_spec k legacyP) as [-> | HkP].
  { rewrite (proj2 (String.eqb_neq legacyP legacyC)) by exact legacy_differ.
    rewrite (proj2 (String.eqb_neq legacyP newC)) by exact cross1.
    destruct (_ && _); destruct (_ && _); reflexivity. }
  destruct (String.eqb_spec k newP) as [-> | HkN].
  { rewrite (proj2 (String.eqb_neq newP legacyC))
      by (intros H; apply cross2; congruence).
    rewrite (proj2 (String.eqb_neq newP newC)) by exact new_differ.
    destruct (_ && _); destruct (_ && _); reflexivity. }
  destruct (String.eqb_spec k legacyC) as [-> | HkC].
  { destruct (truthyString (st legacyP) && negb (truthyString (st newP)));
      reflexivity. }
  destruct (String.eqb k newC);
    destruct (truthyString (st legacyP) && negb (truthyString (st newP)));
    destruct (truthyString (st legacyC) && negb (truthyString (st newC)));
    reflexivity.
Qed.

Lemma migrateBoth_settled :
  forall st : Storage,
    shouldMove (migrateTwoKeys legacyP newP legacyC newC st) legacyP newP = false
    /\ shouldMove (migrateTwoKeys legacyP newP legacyC newC st) legacyC newC = false.
Proof.
  intros st.
  unfold shouldMove.
  rewrite !migrateBoth_at.
  fold (shouldMove st legacyP newP). fold (shouldMove st legacyC newC).
  rewrite !String.eqb_refl.
  rewrite (proj2 (String.eqb_neq newP legacyP))
    by (intros H; apply P_differ; congruence).
  rewrite (proj2 (String.eqb_neq legacyC legacyP))
    by (intros H; apply legacy_differ; congruence).
  rewrite (proj2 (String.eqb_neq legacyC newP)) by exact cross2.
  rewrite (proj2 (String.eqb_neq newC legacyP))
    by (intros H; apply cross1; congruence).
  rewrite (proj2 (String.eqb_neq newC newP))
    by (intros H; apply new_differ; congruence).
  rewrite (proj2 (String.eqb_neq newC legacyC))
    by (intros H; apply C_differ; congruence).
  split.
  - destruct (shouldMove st legacyP newP) eqn:Hgo; [reflexivity|].
    exact Hgo.
  - destruct (shouldMove st legacyC newC) eqn:Hgo; [reflexivity|].
    exact Hgo.
Qed.

Lemma migrateBoth_idempotent :
  forall (st : Storage) (k : string),
    migrateTwoKeys legacyP newP legacyC newC
      (migrateTwoKeys legacyP newP legacyC newC st) k = migrateTwoKeys legacyP newP legacyC newC st k.
Proof.
  intros st k.
  destruct (migrateBoth_settled st) as [HP HC].
  rewrite (migrateBoth_at (migrateTwoKeys legacyP newP legacyC newC st) k), HP, HC.
  destruct (String.eqb k legacyP), (String.eqb k newP),
    (String.eqb k legacyC), (String.eqb k newC); reflexivity.
Qed.

End MigrationOfBoth.

Lemma storage_keys_differ :
  forall (u : string) (lp : LanguageProfile),
    let pk := PHRASES_KEY (Some u) (Some lp) in
    let ck := CATEGORIES_KEY (Some u) (Some lp) in
    LEGACY_PHRASES_KEY <> pk
    /\ LEGACY_CATEGORIES_KEY <> ck
    /\ LEGACY_PHRASES_KEY <> LEGACY_CATEGORIES_KEY
    /\ pk <> ck
    /\ LEGACY_PHRASES_KEY <> ck
    /\ LEGACY_CATEGORIES_KEY <> pk.
Proof.
  intros u lp pk ck. subst pk ck.
  unfold PHRASES_KEY, CATEGORIES_KEY, getStorageKey, LEGACY_PHRASES_KEY,
    LEGACY_CATEGORIES_KEY.
  destruct (String.eqb u ""); cbn; repeat split; discriminate.
Qed.

(** X15. The legacy migration is safe to run on every mount. It never
    overwrites a non-empty value under the new phrase or category key; a
    non-empty legacy value is never lost (it ends up under the new key, or
    stays under the legacy key when the new key was taken); a legacy value
    whose new key is free is moved and its legacy key removed; no other key
    is touched; and running the migration a second time changes
    nothing. *)
Theorem migrateLegacyStorage_safe :
  forall (u : string) (lp : LanguageProfile) (st : Storage),
    let pk := PHRASES_KEY (Some u) (Some lp) in
    let ck := CATEGORIES_KEY (Some u) (Some lp) in
    let st' := migrateLegacyStorage u lp st in
    (forall k : string, migrateLegacyStorage u lp st' k = st' k)
    /\ (truthyString (st pk) = true -> st' pk = st pk)
    /\ (truthyString (st ck) = true -> st' ck = st ck)
    /\ (truthyString (st LEGACY_PHRASES_KEY) = true ->
        st' pk = st LEGACY_PHRASES_KEY
        \/ st' LEGACY_PHRASES_KEY = st LEGACY_PHRASES_KEY)
    /\ (truthyString (st LEGACY_CATEGORIES_KEY) = true ->
        st' ck = st LEGACY_CATEGORIES_KEY
        \/ st' LEGACY_CATEGORIES_KEY = st LEGACY_CATEGORIES_KEY)
    /\ (truthyString (st LEGACY_PHRASES_KEY) = true ->
        truthyString (st pk) = false ->
        st' pk = st LEGACY_PHRASES_KEY /\ st' LEGACY_PHRASES_KEY = None)
    /\ (truthyString (st LEGACY_CATEGORIES_KEY) = true ->
        truthyString (st ck) = false ->
        st' ck = st LEGACY_CATEGORIES_KEY
        /\ st' LEGACY_CATEGORIES_KEY = None)
    /\ (forall k : string,
           k <> pk -> k <> ck ->
           k <> LEGACY_PHRASES_KEY -> k <> LEGACY_CATEGORIES_KEY ->
           st' k = st k).
Proof.
  intros u lp st pk ck st'.
  destruct (storage_keys_differ u lp) as (H1 & H2 & H3 & H4 & H5 & H6).
  fold pk ck in H1, H2, H4, H5, H6.
  assert (Hat := migrateBoth_at LEGACY_PHRASES_KEY pk LEGACY_CATEGORIES_KEY
                                ck H3 H4 H5 H6 st).
  change (migrateTwoKeys LEGACY_PHRASES_KEY pk LEGACY_CATEGORIES_KEY ck st)
    with st' in Hat.
  assert (E1 : String.eqb pk LEGACY_PHRASES_KEY = false)
    by (apply String.eqb_neq; congruence).
  assert (E2 : String.eqb ck LEGACY_PHRASES_KEY = false)
    by (apply String.eqb_neq; congruence).
  assert (E3 : String.eqb ck pk = false)
    by (apply String.eqb_neq; congruence).
  assert (E4 : String.eqb ck LEGACY_CATEGORIES_KEY = false)
    by (apply String.eqb_neq; congruence).
  assert (E5 : String.eqb LEGACY_CATEGORIES_KEY LEGACY_PHRASES_KEY = false)
    by reflexivity.
  assert (E6 : String.eqb LEGACY_CATEGORIES_KEY pk = false)
    by (apply String.eqb_neq; congruence).
  assert (Hpk : st' pk = if shouldMove st LEGACY_PHRASES_KEY pk
                         then st LEGACY_PHRASES_KEY else st pk).
  { rewrite Hat, E1, String.eqb_refl. reflexivity. }
  assert (Hck : st' ck = if shouldMove st LEGACY_CATEGORIES_KEY ck
                         then st LEGACY_CATEGORIES_KEY else st ck).
  { rewrite Hat, E2, E3, E4, String.eqb_refl. reflexivity. }
  assert (Hlp : st' LEGACY_PHRASES_KEY
                = if shouldMove st LEGACY_PHRASES_KEY pk
                  then None else st LEGACY_PHRASES_KEY).
  { rewrite Hat, String.eqb_refl. reflexivity. }
  assert (Hlc : st' LEGACY_CATEGORIES_KEY
                = if shouldMove st LEGACY_CATEGORIES_KEY ck
                  then None else st LEGACY_CATEGORIES_KEY).
  { rewrite Hat, E5, E6, String.eqb_refl. reflexivity. }
  repeat match goal with |- _ /\ _ => split end.
  - intros k.
    exact (migrateBoth_idempotent LEGACY_PHRASES_KEY pk
             LEGACY_CATEGORIES_KEY ck H1 H2 H3 H4 H5 H6 st k).
  - intros Ht. rewrite Hpk. unfold shouldMove. rewrite Ht.
    rewrite andb_false_r. reflexivity.
  - intros Ht. rewrite Hck. unfold shouldMove. rewrite Ht.
    rewrite andb_false_r. reflexivity.
  - intros Ht. rewrite Hpk, Hlp.
    destruct (shouldMove st LEGACY_PHRASES_KEY pk); auto.
  - intros Ht. rewrite Hck, Hlc.
    destruct (shouldMove st LEGACY_CATEGORIES_KEY ck); auto.
  - intros Ht Hfree. rewrite Hpk, Hlp. unfold shouldMove.
    rewrite Ht, Hfree. split; reflexivity.
  - intros Ht Hfree. rewrite Hck, Hlc. unfold shouldMove.
    rewrite Ht, Hfree. split; reflexivity.
  - intros k Hk1 Hk2 Hk3 Hk4. rewrite Hat.
    apply String.eqb_neq in Hk1, Hk2, Hk3, Hk4.
    rewrite Hk1, Hk2, Hk3, Hk4. reflexivity.
Qed.

Lemma migrateLegacyStorage_safe_witness :
  migrateLegacyStorage
    "u1" (mkLanguageProfile "en" "en" "de")
    (fun k => if String.eqb k "learningPhrases" then Some "[]" else None)
    "userPhrases_u1_en_de" = Some "[]".
Proof.
  destruct (migrateLegacyStorage_safe
              "u1" (mkLanguageProfile "en" "en" "de")
              (fun k => if String.eqb k "learningPhrases" then Some "[]"
                        else None))
    as (_ & _ & _ & _ & _ & Hmove & _).
  destruct Hmove as [Hmoved _]; [reflexivity | reflexivity |].
  exact Hmoved.
Defined.

(** ** Practice chat sessions *)

(** X16. The list of completed chat sessions keeps the last 50: after
    [updatePracticeChatSessionComplete] the list ends with the new session,
    holds [min(n + 1, 50)] records, and is the tail of the old list followed
    by the new record, so only the oldest records are dropped and none is
    changed. Unlike the review log, the append does not depend on a user
    being signed in. *)
Theorem chat_sessions_keep_last_50 :
  forall (session : PracticeChatSessionRecord)
         (prev : list PracticeChatSessionRecord),
    let next := updatePracticeChatSessionComplete session prev in
    let dropped := (List.length prev + 1 - 50)%nat in
    next = skipn dropped prev ++ [session]
    /\ List.length next = Nat.min (List.length prev + 1) 50
    /\ prev = firstn dropped prev ++ skipn dropped prev
    /\ ((List.length prev < 50)%nat -> next = prev ++ [session]).
Proof.
  intros session prev next dropped.
  assert (Hnext : next = skipn dropped (prev ++ [session])).
  { subst next dropped.
    unfold updatePracticeChatSessionComplete, slice.
    rewrite length_app. cbn [List.length Z.ltb Z.compare].
    f_equal. lia. }
  assert (Hsuf : next = skipn dropped prev ++ [session]).
  { rewrite Hnext, skipn_app.
    replace (dropped - List.length prev)%nat with O
      by (subst dropped; lia).
    reflexivity. }
  repeat match goal with |- _ /\ _ => split end.
  - exact Hsuf.
  - rewrite Hnext, length_skipn, length_app. cbn [List.length].
    subst dropped. lia.
  - symmetry. apply firstn_skipn.
  - intros Hlt. rewrite Hsuf.
    replace dropped with O by (subst dropped; lia).
    reflexivity.
Qed.

Lemma chat_sessions_keep_last_50_witness :
  updatePracticeChatSessionComplete
    (mkPracticeChatSessionRecord ["p1"] 1 0 0 0 60000 4 1000 61000 "s1") []
  = [mkPracticeChatSessionRecord ["p1"] 1 0 0 0 60000 4 1000 61000 "s1"].
Proof.
  apply (chat_sessions_keep_last_50
           (mkPracticeChatSessionRecord ["p1"] 1 0 0 0 60000 4 1000 61000
                                        "s1") []).
  cbn. lia.
Defined.

(** ** Enabled categories *)

Lemma lookupEnabled_app :
  forall (a b : list (string * bool)) (key : string),
    lookupEnabled (a ++ b) key
    = match lookupEnabled a key with
      | Some v => Some v
      | None => lookupEnabled b key
      end.
Proof.
  induction a as [|[k v] a IH]; intros b key; cbn; [reflexivity|].
  destruct (String.eqb k key); [reflexivity | apply IH].
Qed.

Lemma defaultEnabled_lookup :
  forall (cats : list Category.t) (acc : list (string * bool))
         (key : string),
    lookupEnabled
      (fold_left (fun acc cat => (Category.id cat, true) :: acc) cats acc)
      key
    = if existsb (fun c => String.eqb (Category.id c) key) cats
      then Some true
      else lookupEnabled acc key.
Proof.
  induction cats as [|c cats IH]; intros acc key; cbn; [reflexivity|].
  rewrite IH. cbn.
  destruct (existsb _ cats); [rewrite orb_true_r; reflexivity|].
  rewrite orb_false_r.
  destruct (String.eqb (Category.id c) key); reflexivity.
Qed.

Lemma fill_missing_lookup :
  forall (cats : list Category.t) (enabled : list (string * bool))
         (key : string),
    lookupEnabled
      (fold_left (fun enabled cat =>
                    if hasKey enabled (Category.id cat) then enabled
                    else (Category.id cat, true) :: enabled)
                 cats enabled)
      key
    = match lookupEnabled enabled key with
      | Some v => Some v
      | None =>
          if existsb (fun c => String.eqb (Category.id c) key) cats
          then Some true
          else None
      end.
Proof.
  induction cats as [|c cats IH]; intros enabled key; cbn.
  - destruct (lookupEnabled enabled key); reflexivity.
  - rewrite IH. unfold hasKey.
    destruct (lookupEnabled enabled (Category.id c)) as [v|] eqn:Hc.
    + destruct (lookupEnabled enabled key) as [w|] eqn:Hk; [reflexivity|].
      destruct (String.eqb_spec (Category.id c) key) as [He | _];
        [congruence|].
      reflexivity.
    + cbn.
      destruct (String.eqb_spec (Category.id c) key) as [He | _].
      * rewrite <- He, Hc. reflexivity.
      * destruct (lookupEnabled enabled key); reflexivity.
Qed.

(** X17. Reloading the settings keeps the learner's category switches and
    switches new categories on: in the merged record a key that the stored
    settings hold reads as stored, switched off included; a loaded category
    the stored settings do not mention reads as [true]; any other key is
    absent. *)
Theorem mergeEnabledCategories_lookup :
  forall (loadedCategories : list Category.t)
         (stored : option (list (string * bool))) (key : string),
    lookupEnabled (mergeEnabledCategories loadedCategories stored) key
    = match lookupEnabled (match stored with Some st => st | None => [] end)
                          key with
      | Some v => Some v
      | None =>
          if existsb (fun c => String.eqb (Category.id c) key)
                     loadedCategories
          then Some true
          else None
      end.
Proof.
  intros loadedCategories stored key.
  unfold mergeEnabledCategories, defaultEnabledCategories.
  rewrite fill_missing_lookup, lookupEnabled_app, defaultEnabled_lookup.
  cbn [lookupEnabled].
  destruct (lookupEnabled _ key); [reflexivity|].
  destruct (existsb _ loadedCategories); reflexivity.
Qed.

(** ** Deleting a category *)





(** ** Prefetching *)

Lemma existsb_id_false :
  forall (acc : list Phrase) (p : Phrase),
    existsb (fun q => String.eqb (id q) (id p)) acc = false ->
    ~ In (id p) (map id acc).
Proof.
  intros acc p Hex Hin.
  apply in_map_iff in Hin as (q & Hq & Hin).
  assert (existsb (fun q => String.eqb (id q) (id p)) acc = true).
  { apply existsb_exists. exists q. split; [exact Hin|].
    rewrite Hq. apply String.eqb_refl. }
  congruence.
Qed.

Lemma prefetchLoop_shape :
  forall (sel : list Phrase -> option string -> option Phrase)
         (count : nat) (pool : list Phrase) (last : option string)
         (acc : list Phrase),
    NoDup (map id acc) ->
    let l := prefetchLoop sel count pool last acc in
    NoDup (map id l)
    /\ (List.length l <= List.length acc + count)%nat
    /\ (forall p : Phrase,
           In p l ->
           In p acc \/ exists last' : option string, sel pool last' = Some p).
Proof.
  intros sel count.
  induction count as [|n IH]; intros pool last acc Hnd; cbn.
  - repeat split; [exact Hnd | lia | auto].
  - destruct (sel pool last) as [next|] eqn:Hsel.
    + destruct (existsb _ acc) eqn:Hex.
      * repeat split; [exact Hnd | lia | auto].
      * assert (Hnd' : NoDup (map id (acc ++ [next]))).
        { rewrite map_app. cbn.
          apply NoDup_app; [exact Hnd | repeat constructor; auto |].
          intros x Hx [<- | []].
          exact (existsb_id_false acc next Hex Hx). }
        destruct (IH pool (Some (id next)) (acc ++ [next]) Hnd')
          as (H1 & H2 & H3).
        split; [exact H1|]. split.
        -- rewrite length_app in H2. cbn in H2. lia.
        -- intros p Hp. destruct (H3 p Hp) as [Hacc | Hs]; [|auto].
           apply in_app_or in Hacc as [Hacc | [<- | []]]; [auto|].
           right. exists last. exact Hsel.
    + repeat split; [exact Hnd | lia | auto].
Qed.

(** X19. The prefetch loop asks for at most two phrases and never for the
    same one twice: the list it collects has at most [PREFETCH_COUNT]
    phrases with pairwise distinct ids, it is empty exactly when the
    selector has nothing after the starting phrase, and, if the selector
    only returns members of the pool it is given, every collected phrase is
    a stored phrase that is not mastered. *)
Theorem prefetchPhrases_bounded_distinct :
  forall (selectNextPhrase : list Phrase -> option string -> option Phrase)
         (start : option string) (s : AppState),
    let fetched := prefetchPhrases selectNextPhrase start s in
    let unmastered := filter (fun p => negb (isMastered p)) (allPhrases s) in
    (List.length fetched <= 2)%nat
    /\ NoDup (map id fetched)
    /\ (fetched = [] <-> selectNextPhrase unmastered start = None)
    /\ ((forall (pool : list Phrase) (last : option string) (p : Phrase),
            selectNextPhrase pool last = Some p -> In p pool) ->
        forall p : Phrase,
          In p fetched -> In p (allPhrases s) /\ isMastered p = false).
Proof.
  intros sel start s fetched unmastered.
  destruct (prefetchLoop_shape sel PREFETCH_COUNT unmastered start []
                               (NoDup_nil _)) as (Hnd & Hlen & Hfrom).
  fold (prefetchPhrases sel start s) in Hnd, Hlen, Hfrom.
  fold fetched in Hnd, Hlen, Hfrom.
  repeat match goal with |- _ /\ _ => split end.
  - exact Hlen.
  - exact Hnd.
  - subst fetched. unfold prefetchPhrases. fold unmastered. cbn.
    destruct (sel unmastered start) as [next|]; [|tauto].
    split; [|discriminate].
    destruct (sel unmastered (Some (id next))) as [next2|].
    + cbn. rewrite orb_false_r.
      destruct (String.eqb (id next) (id next2)); discriminate.
    + discriminate.
  - intros Hmember p Hp.
    destruct (Hfrom p Hp) as [[] | (last & Hsel)].
    apply Hmember in Hsel.
    apply filter_In in Hsel as [Hin Hm].
    apply negb_true_iff in Hm. auto.
Qed.

Lemma prefetchPhrases_bounded_distinct_witness :
  In sampleLeech (allPhrases sampleState) /\ isMastered sampleLeech = false.
Proof.
  apply (prefetchPhrases_bounded_distinct (selectAt 4000) (Some "p1")
                                          sampleState).
  - intros pool last p Hsel.
    apply selectNextPhrase_in_candidates in Hsel.
    apply candidates_eligible in Hsel. tauto.
  - cbn. auto.
Defined.

(** ** Ids between frontend and backend *)

Lemma digitsValue_stop :
  forall (acc : Z) (rest : string),
    startsWithDigit rest = false -> digitsValue acc rest = acc.
Proof.
  intros acc rest H. destruct rest as [|c r]; [reflexivity|].
  cbn in *. destruct (digitOf c); [discriminate | reflexivity].
Qed.

Lemma digitsValue_acc :
  forall (d : Decimal.uint) (acc : positive) (rest : string),
    startsWithDigit rest = false ->
    digitsValue (Z.pos acc) (NilEmpty.string_of_uint d ++ rest)
    = Z.pos (Pos.of_uint_acc d acc).
Proof.
  induction d; intros acc rest Hrest;
    try (cbn [NilEmpty.string_of_uint String.append digitsValue
              Pos.of_uint_acc];
         change (digitOf _) with (Some 0) || change (digitOf _) with (Some 1)
         || change (digitOf _) with (Some 2)
         || change (digitOf _) with (Some 3)
         || change (digitOf _) with (Some 4)
         || change (digitOf _) with (Some 5)
         || change (digitOf _) with (Some 6)
         || change (digitOf _) with (Some 7)
         || change (digitOf _) with (Some 8)
         || change (digitOf _) with (Some 9);
         cbv beta iota;
         etransitivity; [|apply (IHd _ rest Hrest)]; f_equal; lia).
  cbn. apply digitsValue_stop. exact Hrest.
Qed.

Lemma digitsValue_zero :
  forall (d : Decimal.uint) (rest : string),
    startsWithDigit rest = false ->
    digitsValue 0 (NilEmpty.string_of_uint d ++ rest)
    = Z.of_N (Pos.of_uint d).
Proof.
  induction d; intros rest Hrest;
    try (cbn [NilEmpty.string_of_uint String.append digitsValue
              Pos.of_uint];
         change (digitOf _) with (Some 1) || change (digitOf _) with (Some 2)
         || change (digitOf _) with (Some 3)
         || change (digitOf _) with (Some 4)
         || change (digitOf _) with (Some 5)
         || change (digitOf _) with (Some 6)
         || change (digitOf _) with (Some 7)
         || change (digitOf _) with (Some 8)
         || change (digitOf _) with (Some 9);
         cbv beta iota;
         exact (digitsValue_acc d _ rest Hrest)).
  - cbn. apply digitsValue_stop. exact Hrest.
  - cbn [NilEmpty.string_of_uint String.append digitsValue Pos.of_uint].
    change (digitOf _) with (Some 0). cbv beta iota.
    apply IHd. exact Hrest.
Qed.

Lemma parseInt_digits :
  forall (d : Decimal.uint) (rest : string),
    d <> Decimal.Nil ->
    startsWithDigit rest = false ->
    parseInt (NilEmpty.string_of_uint d ++ rest)
    = Num (Z.of_N (Pos.of_uint d))
    /\ parseInt (String "-" (NilEmpty.string_of_uint d ++ rest))
       = Num (- Z.of_N (Pos.of_uint d)).
Proof.
  intros d rest Hd Hrest.
  pose proof (digitsValue_zero d rest Hrest) as Hv.
  destruct d; [contradiction Hd; reflexivity | ..];
    cbn [NilEmpty.string_of_uint String.append] in *;
    unfold parseInt;
    cbn [trimStart];
    (change (isWhitespace _) with false);
    cbv beta iota;
    (change (isWhitespace "-") with false);
    cbn [Ascii.eqb Bool.eqb fst snd startsWithDigit];
    (change (digitOf _) with (Some 0) || change (digitOf _) with (Some 1)
     || change (digitOf _) with (Some 2) || change (digitOf _) with (Some 3)
     || change (digitOf _) with (Some 4) || change (digitOf _) with (Some 5)
     || change (digitOf _) with (Some 6) || change (digitOf _) with (Some 7)
     || change (digitOf _) with (Some 8)
     || change (digitOf _) with (Some 9));
    cbv beta iota; rewrite Hv; split; reflexivity.
Qed.

Lemma string_of_uint_nonnil :
  forall d : Decimal.uint,
    d <> Decimal.Nil ->
    NilZero.string_of_uint d = NilEmpty.string_of_uint d.
Proof.
  intros d Hd. destruct d; [contradiction Hd|..]; reflexivity.
Qed.

Lemma parseInt_numberToString_rest :
  forall (z : Z) (rest : string),
    startsWithDigit rest = false ->
    parseInt (numberToString z ++ rest) = Num z.
Proof.
  intros z rest Hrest.
  unfold numberToString.
  destruct z as [|p|p]; cbn [Z.to_int NilZero.string_of_int].
  - cbn. rewrite (digitsValue_stop 0 rest Hrest).
    destruct rest; reflexivity.
  - pose proof (DecimalPos.Unsigned.to_uint_nonnil p) as Hnil.
    rewrite (string_of_uint_nonnil _ Hnil).
    rewrite (proj1 (parseInt_digits (Pos.to_uint p) rest Hnil Hrest)).
    rewrite DecimalPos.Unsigned.of_to. reflexivity.
  - pose proof (DecimalPos.Unsigned.to_uint_nonnil p) as Hnil.
    rewrite (string_of_uint_nonnil _ Hnil).
    cbn [String.append].
    rewrite (proj2 (parseInt_digits (Pos.to_uint p) rest Hnil Hrest)).
    rewrite DecimalPos.Unsigned.of_to. reflexivity.
Qed.

Lemma string_append_nil :
  forall s : string, (s ++ "")%string = s.
Proof.
  induction s as [|c s IH]; cbn; [reflexivity | rewrite IH; reflexivity].
Qed.

Lemma parseInt_round_trip_nil :
  forall z : Z, Num z = parseInt (numberToString z).
Proof.
  intros z.
  rewrite <- (string_append_nil (numberToString z)) at 1.
  symmetry. apply parseInt_numberToString_rest. reflexivity.
Qed.

(** X20. Ids survive the trip through the frontend: reading back with
    [parseInt] the decimal string that [toString] gives for an integer
    returns that integer, also when the digits are followed by text that
    does not start with a digit. *)
Theorem parseInt_numberToString :
  forall z : Z,
    parseInt (numberToString z) = Num z
    /\ forall rest : string,
        startsWithDigit rest = false ->
        parseInt (numberToString z ++ rest) = Num z.
Proof.
  intros z. split.
  - symmetry. apply parseInt_round_trip_nil.
  - intros rest Hrest. apply parseInt_numberToString_rest. exact Hrest.
Qed.

Lemma parseInt_numberToString_witness :
  parseInt "42px" = Num 42 /\ parseInt "-7" = Num (-7).
Proof.
  split.
  - apply (proj2 (parseInt_numberToString 42) "px"). reflexivity.
  - apply (proj1 (parseInt_numberToString (-7))).
Defined.

(** ** Category colours and the category calls *)

(** The colour a category comes back with after a trip to the backend. *)
Lemma colour_trip :
  forall color : string,
    orElse (lookupString hexToTailwindMap
                         (toLowerCase (hexColorOf color)))
           "bg-slate-500"
    = match lookupString tailwindToHexMap color with
      | Some _ => color
      | None => "bg-slate-500"
      end.
Proof.
  intros color.
  unfold hexColorOf.
  unfold tailwindToHexMap.
  repeat (cbn [lookupString];
          match goal with
          | |- context [String.eqb ?k color] =>
              destruct (String.eqb_spec k color) as [<- | ?];
              [vm_compute; reflexivity|]
          end).
  vm_compute. reflexivity.
Qed.



(** X22. [createCategory] never resolves without a backend row: when the
    insert is rejected, the record handed back by the [catch] has no id,
    so converting it throws and the promise rejects; when the insert
    returns the record with an id, the new category has that id as a
    decimal string, the same name and flag, and the palette colour it was
    created with. *)
Theorem createCategory_needs_backend_id :
  forall (name color : string) (isFoundational : bool),
    createCategory (fun _ => None) name color isFoundational = None
    /\ (forall (backend : DbCategory -> option DbCategory),
           (forall sent : DbCategory,
               exists row : DbCategory,
                 backend sent = Some row /\ dbc_id row = None) ->
           createCategory backend name color isFoundational = None)
    /\ (forall z : Z,
           lookupString tailwindToHexMap color <> None ->
           createCategory
             (fun sent =>
                Some (mkDbCategory (Some (Num z)) (dbc_name sent)
                                   (dbc_color sent)
                                   (dbc_is_foundational sent)))
             name color isFoundational
           = Some (Category.mk (numberToString z) name color isFoundational
                               None)).
Proof.
  intros name color isFoundational.
  split; [reflexivity|]. split.
  - intros backend Hback.
    unfold createCategory.
    destruct (Hback (mkDbCategory None name (hexColorOf color)
                                  isFoundational)) as (row & Hrow & Hid).
    rewrite Hrow. unfold feCategory. rewrite Hid. reflexivity.
  - intros z Hc.
    unfold createCategory, feCategory.
    cbn [dbc_id dbc_name dbc_color dbc_is_foundational numToString].
    rewrite colour_trip.
    destruct (lookupString tailwindToHexMap color); [reflexivity|].
    contradiction Hc. reflexivity.
Qed.

Lemma createCategory_needs_backend_id_witness :
  createCategory
    (fun sent => Some (mkDbCategory (Some (Num 12)) (dbc_name sent)
                                    (dbc_color sent)
                                    (dbc_is_foundational sent)))
    "Travel" "bg-teal-500" false
  = Some (Category.mk "12" "Travel" "bg-teal-500" false None).
Proof.
  apply (createCategory_needs_backend_id "Travel" "bg-teal-500" false).
  discriminate.
Defined.

(** ** The phrase update request *)

(** X23. What [updatePhrase] sends for a phrase: the scheduling fields go
    out exactly as the phrase has them; a phrase whose id and category are
    the decimal strings of integers [n] and [c > 0] is sent to row [n] with
    category [c]; a category that parses to zero or below is rejected
    before any call; a category with no leading number, the empty one
    included, parses to [NaN] and is not rejected. *)
Theorem updatePhraseRequest_behaviour :
  forall phrase : Phrase,
    (forall (row : option JsNumber) (d : DbPhrase),
        updatePhraseRequest phrase = Some (row, d) ->
        row = Some (parseInt (id phrase))
        /\ dbp_masteryLevel d = Some (masteryLevel phrase)
        /\ dbp_lastReviewedAt d = lastReviewedAt phrase
        /\ dbp_nextReviewAt d = Some (nextReviewAt phrase)
        /\ dbp_knowCount d = Some (knowCount phrase)
        /\ dbp_knowStreak d = Some (knowStreak phrase)
        /\ dbp_isMastered d = Some (isMastered phrase)
        /\ dbp_lapses d = Some (lapses phrase))
    /\ (forall n c : Z,
           id phrase = numberToString n ->
           category phrase = numberToString c ->
           (0 < c ->
            exists d : DbPhrase,
              updatePhraseRequest phrase = Some (Some (Num n), d)
              /\ dbp_category_id d = Num c)
           /\ (c <= 0 -> updatePhraseRequest phrase = None))
    /\ (parseInt (category phrase) = NaN ->
        exists d : DbPhrase,
          updatePhraseRequest phrase = Some (Some (parseInt (id phrase)), d)
          /\ dbp_category_id d = NaN).
Proof.
  intros phrase.
  split; [|split].
  - intros row d.
    unfold updatePhraseRequest.
    destruct (leZero _); [discriminate|].
    intros H. injection H as <- <-. repeat split.
  - intros n c Hid Hcat.
    unfold updatePhraseRequest, toDbPhrase.
    cbn [dbp_category_id dbp_id].
    rewrite Hid, Hcat, <- !parseInt_round_trip_nil.
    cbn [leZero].
    split.
    + intros Hpos.
      replace (c <=? 0) with false by (symmetry; apply Z.leb_gt; lia).
      eexists. split; reflexivity.
    + intros Hle.
      replace (c <=? 0) with true by (symmetry; apply Z.leb_le; lia).
      reflexivity.
  - intros Hnan.
    unfold updatePhraseRequest, toDbPhrase.
    cbn [dbp_category_id dbp_id].
    rewrite Hnan. cbn [leZero].
    eexists. split; reflexivity.
Qed.

Lemma updatePhraseRequest_behaviour_witness :
  (exists d : DbPhrase,
      updatePhraseRequest
        (mkPhrase "15" (mkPhraseText "ja" "yes") "3" None None
                  2 (Some 1000) 2000 4 2 false 1 None)
      = Some (Some (Num 15), d)
      /\ dbp_category_id d = Num 3)
  /\ exists d : DbPhrase,
      updatePhraseRequest samplePhrase = Some (Some NaN, d)
      /\ dbp_category_id d = NaN.
Proof.
  split.
  - apply (proj1 (proj2 (updatePhraseRequest_behaviour
                           (mkPhrase "15" (mkPhraseText "ja" "yes") "3"
                                     None None 2 (Some 1000) 2000 4 2 false
                                     1 None)))
                 15 3); [reflexivity | reflexivity | lia].
  - apply (proj2 (proj2 (updatePhraseRequest_behaviour samplePhrase))).
    reflexivity.
Defined.

(** ** Retrying a request *)

Lemma fetchLoop_shape :
  forall (fetch : nat -> FetchResult) (retries remaining i : nat)
         (delay : Z) (sleeps : list Z),
    (i + remaining = retries)%nat ->
    let run := fetchLoop fetch retries remaining i delay sleeps in
    (i <= calls run <= retries)%nat
    /\ (0 < remaining -> i < calls run)%nat
    /\ (exists more : list Z,
           slept run = sleeps ++ more
           /\ List.length more = (calls run - i - (if Nat.ltb 0 remaining
                                                   then 1 else 0))%nat
           /\ forall k : nat,
               (k < List.length more)%nat ->
               nth k more 0 = delay * 2 ^ Z.of_nat k)
    /\ (forall j : nat,
           (i <= j)%nat -> (S j < calls run)%nat ->
           isRetried (fetch j) = true)
    /\ (forall status : Z,
           outcome run = Returned status ->
           (0 < calls run)%nat
           /\ fetch (calls run - 1)%nat = Responded status)
    /\ (forall error : string,
           outcome run = Threw error ->
           (0 < remaining)%nat ->
           calls run = retries
           /\ fetch (retries - 1)%nat = Failed error).
Proof.
  intros fetch retries remaining.
  induction remaining as [|rest IH]; intros i delay sleeps Hsum run.
  - subst run. cbn.
    repeat match goal with |- _ /\ _ => split end; try lia.
    + exists []. rewrite app_nil_r. cbn [List.length].
      repeat split; [lia | intros k Hk; lia].
    + discriminate.
  - assert (Hstop :
              forall o : RetryOutcome,
                let r := mkRetryRun o (S i) sleeps in
                (i <= calls r <= retries)%nat
                /\ (0 < S rest -> i < calls r)%nat
                /\ (exists more : list Z,
                       slept r = sleeps ++ more
                       /\ List.length more
                          = (calls r - i
                             - (if Nat.ltb 0 (S rest) then 1 else 0))%nat
                       /\ forall k : nat,
                           (k < List.length more)%nat ->
                           nth k more 0 = delay * 2 ^ Z.of_nat k)
                /\ (forall j : nat,
                       (i <= j)%nat -> (S j < calls r)%nat ->
                       isRetried (fetch j) = true)).
    { intros o r. subst r. cbn [calls slept].
      repeat match goal with |- _ /\ _ => split end; try lia.
      exists []. rewrite app_nil_r. cbn [List.length Nat.ltb Nat.leb].
      repeat split; [lia | intros k Hk; lia]. }
    assert (Hgo :
              isRetried (fetch i) = true ->
              let r := fetchLoop fetch retries rest (S i) (delay * 2)
                                 (sleeps ++ [delay]) in
              Nat.ltb i (retries - 1) = true ->
              (i <= calls r <= retries)%nat
              /\ (0 < S rest -> i < calls r)%nat
              /\ (exists more : list Z,
                     slept r = sleeps ++ more
                     /\ List.length more
                        = (calls r - i
                           - (if Nat.ltb 0 (S rest) then 1 else 0))%nat
                     /\ forall k : nat,
                         (k < List.length more)%nat ->
                         nth k more 0 = delay * 2 ^ Z.of_nat k)
              /\ (forall j : nat,
                     (i <= j)%nat -> (S j < calls r)%nat ->
                     isRetried (fetch j) = true)
              /\ (forall status : Z,
                     outcome r = Returned status ->
                     (0 < calls r)%nat
                     /\ fetch (calls r - 1)%nat = Responded status)
              /\ (forall error : string,
                     outcome r = Threw error ->
                     (0 < S rest)%nat ->
                     calls r = retries
                     /\ fetch (retries - 1)%nat = Failed error)).
    { intros Hretry r Hlt.
      apply Nat.ltb_lt in Hlt.
      assert (Hrest : (0 < rest)%nat) by lia.
      destruct (IH (S i) (delay * 2) (sleeps ++ [delay]) ltac:(lia))
        as (Hc & Hpos & (more & Hs & Hlen & Hnth) & Hret & Hout & Hthrow).
      fold r in Hc, Hpos, Hs, Hlen, Hnth, Hret, Hout, Hthrow.
      specialize (Hpos Hrest).
      replace (Nat.ltb 0 rest) with true in Hlen
        by (symmetry; apply Nat.ltb_lt; exact Hrest).
      repeat match goal with |- _ /\ _ => split end; try lia.
      - exists (delay :: more).
        rewrite Hs, <- app_assoc. cbn [app List.length Nat.ltb Nat.leb].
        repeat split; [lia|].
        intros [|k] Hk; cbn [nth].
        + cbn. lia.
        + rewrite Hnth by lia.
          rewrite Nat2Z.inj_succ, Z.pow_succ_r by lia. lia.
      - intros j Hij Hj.
        destruct (Nat.eq_dec j i) as [-> | Hne]; [exact Hretry|].
        apply Hret; lia.
      - exact Hout.
      - intros error He _. apply Hthrow; [exact He | exact Hrest]. }
    subst run. cbn [fetchLoop].
    destruct (fetch i) as [status | error] eqn:Hfetch.
    + destruct (statusOk status || (status =? 401) || (status =? 403))
        eqn:Hdone.
      * destruct (Hstop (Returned status)) as (H1 & H2 & H3 & H4).
        repeat match goal with |- _ /\ _ => split end;
          try assumption; cbn [calls outcome]; try lia.
        -- intros st Hst. injection Hst as <-.
           replace (S i - 1)%nat with i by lia.
           split; [lia | exact Hfetch].
        -- discriminate.
      * destruct ((status =? 429) && Nat.ltb i (retries - 1)) eqn:Hagain.
        -- apply andb_true_iff in Hagain as [H429 Hlt].
           apply Hgo; [exact H429 | exact Hlt].
        -- destruct (Hstop (Returned status)) as (H1 & H2 & H3 & H4).
           repeat match goal with |- _ /\ _ => split end;
             try assumption; cbn [calls outcome]; try lia.
           ++ intros st Hst. injection Hst as <-.
              replace (S i - 1)%nat with i by lia.
           split; [lia | exact Hfetch].
           ++ discriminate.
    + destruct (Nat.ltb i (retries - 1)) eqn:Hlt.
      * apply Hgo; reflexivity.
      * destruct (Hstop (Threw error)) as (H1 & H2 & H3 & H4).
        apply Nat.ltb_ge in Hlt.
        repeat match goal with |- _ /\ _ => split end;
          try assumption; cbn [calls outcome]; try lia.
        -- discriminate.
        -- intros e He _. injection He as <-.
           assert (Hi : i = (retries - 1)%nat) by lia.
           split; [lia|]. rewrite <- Hi. exact Hfetch.
Qed.

(** X24. [fetchWithRetry] is bounded and retries only what it should. It
    makes at most [retries] calls; every call but the last one made was a
    429 response or a thrown error, so a success, a 401, a 403 or any other
    status ends the loop at once and is returned as it is; the pauses
    between calls start at [initialDelay] and double each time; a response
    that is returned is that of the last call made, so after [retries]
    rate-limited calls the 429 itself is returned; an error is thrown only
    after [retries] calls, and is the error of the last one; with
    [retries = 0] nothing is fetched. *)
Theorem fetchWithRetry_bounded :
  forall (fetch : nat -> FetchResult) (retries : nat) (initialDelay : Z),
    let run := fetchWithRetry fetch retries initialDelay in
    (calls run <= retries)%nat
    /\ (0 < retries -> 0 < calls run)%nat
    /\ List.length (slept run) = (calls run - 1)%nat
    /\ (forall k : nat,
           (k < List.length (slept run))%nat ->
           nth k (slept run) 0 = initialDelay * 2 ^ Z.of_nat k)
    /\ (forall j : nat,
           (S j < calls run)%nat -> isRetried (fetch j) = true)
    /\ (forall status : Z,
           outcome run = Returned status ->
           fetch (calls run - 1)%nat = Responded status)
    /\ (forall error : string,
           outcome run = Threw error ->
           (0 < retries)%nat ->
           calls run = retries /\ fetch (retries - 1)%nat = Failed error)
    /\ (retries = O -> calls run = O /\ slept run = []).
Proof.
  intros fetch retries initialDelay run.
  destruct (fetchLoop_shape fetch retries retries 0 initialDelay []
                            ltac:(lia))
    as (Hc & Hpos & (more & Hs & Hlen & Hnth) & Hret & Hout & Hthrow).
  fold (fetchWithRetry fetch retries initialDelay) in *.
  fold run in Hc, Hpos, Hs, Hlen, Hnth, Hret, Hout, Hthrow.
  cbn [app] in Hs. rewrite Hs.
  repeat match goal with |- _ /\ _ => split end.
  - lia.
  - exact Hpos.
  - rewrite Hlen. destruct retries; cbn; lia.
  - exact Hnth.
  - intros j Hj. apply Hret; lia.
  - intros status Hst. apply Hout. exact Hst.
  - exact Hthrow.
  - intros ->. subst run. cbn in *. subst more. split; reflexivity.
Qed.

Lemma fetchWithRetry_bounded_witness :
  (fun i : nat => if Nat.ltb i 2 then Responded 429 else Responded 200)
    (calls (fetchWithRetry
              (fun i => if Nat.ltb i 2 then Responded 429 else Responded 200)
              3 500) - 1)%nat
  = Responded 200.
Proof.
  destruct (fetchWithRetry_bounded
              (fun i => if Nat.ltb i 2 then Responded 429 else Responded 200)
              3 500) as (_ & _ & _ & _ & _ & Hret & _).
  apply (Hret 200). reflexivity.
Defined.
